(** * NEXUS backend: the AI provider manager and the intelligent router

    A shallow embedding of [services/ai_provider.py] (the multi-provider
    completion gateway with failover, cost accounting and request logging)
    and of [services/ai_router.py] (the Susan/Agnes intent router), with
    the properties of the gateway and of the router stated and proved on
    the embedding. The last part embeds a caller of the gateway, the
    email customiser of [email/generator.py].

    Conventions of the embedding.
    - Python [float] is IEEE binary64: the kernel's primitive floats.
    - Python [int] is [Z].
    - Python [str] is [string]; the text handled here is ASCII, and
      [str.lower] / [str.title] are the ASCII case maps.
    - A [dict] used as a map is a [gmap]; a [dict] that is iterated
      (the keyword tables) is an association list in insertion order.
    - The routing context is a [dict] from keys to values of the
      built-in types: [None], a [bool], an [int], a [float], a [str], or
      another one (a container, bytes, a complex).
    - The mutable attributes of the manager, the rows handed to the
      database and the calls made to the providers are threaded as an
      explicit state. *)

From Stdlib Require Import ZArith String Ascii List Bool Lia.
From Stdlib Require Import Permutation Sorted.
From Stdlib Require Import Floats.
From stdpp Require Import gmap strings.

Set Warnings "-inexact-float".

Local Open Scope string_scope.
Local Open Scope Z_scope.

(** ** Exceptions *)

(** The exceptions the modelled code can raise, and the outcome of a call
    that either returns or raises. *)
Inductive exn :=
| Exception (msg : string)
| KeyError (key : string)
| ZeroDivisionError
| TypeError.

Inductive outcome (A : Type) :=
| Return (a : A)
| Raise (e : exn).
Arguments Return {A} a.
Arguments Raise {A} e.

(** [outcome] is a monad; the [x ← c; k] notation sequences calls and
    propagates the first exception. *)
#[global] Instance outcome_ret : MRet outcome := fun A a => Return a.
#[global] Instance outcome_bind : MBind outcome := fun A B f x =>
  match x with
  | Return a => f a
  | Raise e => Raise e
  end.

(** ** Python primitives *)

Module Py.

(** [int] to [float]; exact for every [|z| < 2^53], which covers any
    token count a provider reports. *)
Definition float_of_int (z : Z) : float :=
  if z <? 0 then PrimFloat.opp (PrimFloat.of_uint63 (Uint63.of_Z (- z)))
  else PrimFloat.of_uint63 (Uint63.of_Z z).

(** [a / b] on two ints with a non-zero divisor (true division). *)
Definition truediv_int (a b : Z) : float :=
  PrimFloat.div (float_of_int a) (float_of_int b).

(** Truth value of a float: everything but [0.0] and [-0.0]. *)
Definition float_truthy (x : float) : bool := negb (PrimFloat.eqb x 0%float).

(** [x or d] where [x] is [None] or a float. *)
Definition or_float (x : option float) (d : float) : float :=
  match x with
  | Some v => if float_truthy v then v else d
  | None => d
  end.

(** [x or d] where [x] is [None] or an int. *)
Definition or_int (x : option Z) (d : Z) : Z :=
  match x with
  | Some v => if v =? 0 then d else v
  | None => d
  end.

(** Truth value of a string: non-empty. *)
Definition str_truthy (s : string) : bool :=
  match s with EmptyString => false | String _ _ => true end.

(** [min(a, b)] on ints. *)
Definition min_int (a b : Z) : Z := if b <? a then b else a.

(** [min(a, b)] on floats: the first argument unless the second is
    strictly smaller. *)
Definition min_float (a b : float) : float :=
  if PrimFloat.ltb b a then b else a.

(** [a / b] on floats: raises on a zero divisor. *)
Definition truediv (a b : float) : outcome float :=
  if PrimFloat.eqb b 0%float then Raise ZeroDivisionError
  else Return (PrimFloat.div a b).

(** [sep.join(l)]. *)
Fixpoint join (sep : string) (l : list string) : string :=
  match l with
  | [] => ""
  | [x] => x
  | x :: rest => x ++ sep ++ join sep rest
  end.

(** ASCII case maps on characters. *)
Definition is_upper (c : ascii) : bool :=
  let n := N_of_ascii c in (65 <=? n)%N && (n <=? 90)%N.

Definition is_lower (c : ascii) : bool :=
  let n := N_of_ascii c in (97 <=? n)%N && (n <=? 122)%N.

Definition lower_char (c : ascii) : ascii :=
  if is_upper c then ascii_of_N (N_of_ascii c + 32) else c.

Definition upper_char (c : ascii) : ascii :=
  if is_lower c then ascii_of_N (N_of_ascii c - 32) else c.

(** [s.lower()]. *)
Fixpoint lower (s : string) : string :=
  match s with
  | EmptyString => EmptyString
  | String c s' => String (lower_char c) (lower s')
  end.

(** [s.title()]: a letter that follows a letter is lowered, any other
    letter is raised. *)
Fixpoint title_from (prev_cased : bool) (s : string) : string :=
  match s with
  | EmptyString => EmptyString
  | String c s' =>
      let cased := is_upper c || is_lower c in
      String (if prev_cased then lower_char c else upper_char c)
             (title_from cased s')
  end.

Definition title (s : string) : string := title_from false s.

(** [sub in s]. *)
Fixpoint contains (sub s : string) : bool :=
  String.prefix sub s ||
  match s with
  | EmptyString => false
  | String _ s' => contains sub s'
  end.

End Py.

(** ** The provider registry *)

(** One entry of [self.providers]. The [client] object of the source is
    identified by the provider's name; what it answers is the oracle
    [chat_completions_create] below. *)
Record Provider := {
  name : string;
  models : gmap string string;
  cost_per_1k_tokens : float;
  priority : Z;
  max_tokens : Z;
  supports_streaming : bool
}.

Record Settings := {
  GROQ_MODEL_SUSAN : string;
  GROQ_MODEL_AGNES : string;
  TOGETHER_MODEL_SUSAN : string;
  TOGETHER_MODEL_AGNES : string;
  OPENROUTER_MODEL : string;
  AI_TEMPERATURE : float;
  AI_MAX_TOKENS : Z;
  FRONTEND_URL : string
}.

(** The defaults of [config.py]. *)
Definition default_settings : Settings := {|
  GROQ_MODEL_SUSAN := "llama-3.3-70b-versatile";
  GROQ_MODEL_AGNES := "llama-3.3-70b-versatile";
  TOGETHER_MODEL_SUSAN := "Qwen/Qwen2.5-72B-Instruct-Turbo";
  TOGETHER_MODEL_AGNES := "Qwen/Qwen2.5-72B-Instruct-Turbo";
  OPENROUTER_MODEL := "auto";
  AI_TEMPERATURE := 0.7%float;
  AI_MAX_TOKENS := 2048;
  FRONTEND_URL := "http://localhost:3000"
|}.

(** The three providers registered by [AIProviderManager.__init__]. *)
Definition groq_provider (settings : Settings) : Provider :=
  {| name := "groq";
     models := <["susan" := GROQ_MODEL_SUSAN settings]>
               (<["agnes" := GROQ_MODEL_AGNES settings]> ∅);
     cost_per_1k_tokens := 0.00059%float;
     priority := 1;
     max_tokens := 8192;
     supports_streaming := true |}.

Definition together_provider (settings : Settings) : Provider :=
  {| name := "together";
     models := <["susan" := TOGETHER_MODEL_SUSAN settings]>
               (<["agnes" := TOGETHER_MODEL_AGNES settings]> ∅);
     cost_per_1k_tokens := 0.0009%float;
     priority := 2;
     max_tokens := 8192;
     supports_streaming := true |}.

Definition openrouter_provider (settings : Settings) : Provider :=
  {| name := "openrouter";
     models := <["susan" := OPENROUTER_MODEL settings]>
               (<["agnes" := OPENROUTER_MODEL settings]> ∅);
     cost_per_1k_tokens := 0.001%float;
     priority := 3;
     max_tokens := 4096;
     supports_streaming := true |}.

Definition registered_providers (settings : Settings) : list Provider :=
  [ groq_provider settings; together_provider settings;
    openrouter_provider settings ].

(** [sorted(self.providers, key=lambda x: x["priority"])]. Python's sort
    is stable; the result of a stable sort is unique (see
    [priority_order_unique]), so it is computed here by a stable insertion
    sort. *)
Fixpoint insert_by_priority (x : Provider) (l : list Provider) : list Provider :=
  match l with
  | [] => [x]
  | y :: l' =>
      if priority x <=? priority y then x :: y :: l'
      else y :: insert_by_priority x l'
  end.

Fixpoint sorted_by_priority (l : list Provider) : list Provider :=
  match l with
  | [] => []
  | x :: l' => insert_by_priority x (sorted_by_priority l')
  end.

(** ** Requests, responses, statistics and log rows *)

(** One chat message, [{"role": ..., "content": ...}]. *)
Record Message := { role : string; content_of : string }.

Record Usage := {
  prompt_tokens : Z;
  completion_tokens : Z;
  total_tokens : Z
}.

(** What [_call_provider] returns: [{"content": ..., "usage": ...}]. *)
Record ResponseData := {
  rd_content : string;
  rd_usage : Usage
}.

(** What [generate] returns. *)
Record GenerateResult := {
  content : string;
  provider : string;
  model : string;
  usage : Usage;
  cost : float;
  response_time_ms : Z
}.

(** One entry of [self.provider_stats]. *)
Record Stats := {
  successes : Z;
  failures : Z;
  total_cost : float
}.

(** One row of [ai_requests], as built by [_log_request]. *)
Record AIRequest := {
  req_user_id : option string;
  req_ai_type : string;
  req_provider : string;
  req_model : string;
  req_prompt_tokens : option Z;
  req_completion_tokens : option Z;
  req_total_tokens : option Z;
  req_cost_usd : option float;
  req_response_time_ms : option Z;
  req_success : bool;
  req_error_message : option string
}.

(** A request handed to a provider's [chat.completions.create]. *)
Record ChatRequest := {
  chat_client : string;
  chat_model : string;
  chat_messages : list Message;
  chat_temperature : float;
  chat_max_tokens : Z;
  chat_stream : bool;
  chat_extra_headers : list (string * string)
}.

(** One invocation of [_call_provider]. *)
Record ProviderCall := {
  call_provider : string;
  call_model : string;
  call_temperature : float;
  call_max_tokens : Z;
  call_stream : bool
}.

(** The manager ([providers], [provider_stats]) together with what it
    has done to the outside: the rows it handed to [_log_request]
    ([ai_requests], oldest first; their persistence is best effort and a
    database failure is swallowed there) and the invocations of
    [_call_provider] ([calls], oldest first). *)
Record Manager := {
  providers : list Provider;
  provider_stats : gmap string Stats;
  ai_requests : list AIRequest;
  calls : list ProviderCall
}.

(** [AIProviderManager.__init__] over a list of providers. *)
Definition new_stats : Stats :=
  {| successes := 0; failures := 0; total_cost := 0%float |}.

Definition make_manager (ps : list Provider) : Manager := {|
  providers := ps;
  provider_stats :=
    fold_left (fun m p => <[name p := new_stats]> m) ps ∅;
  ai_requests := [];
  calls := []
|}.

Definition __init__ (settings : Settings) : Manager :=
  make_manager (registered_providers settings).

(** ** The completion gateway *)

(** [_calculate_cost]: [(total_tokens / 1000) * cost_per_1k]. *)
Definition _calculate_cost (total_tokens : Z) (cost_per_1k : float) : float :=
  PrimFloat.mul (Py.truediv_int total_tokens 1000) cost_per_1k.

(** ["; ".join([f"{e['provider']}: {e['error']}" for e in errors])]. *)
Definition error_summary (errors : list (string * string)) : string :=
  Py.join "; " (map (fun e => fst e ++ ": " ++ snd e) errors).

(** The message of the exception raised when the loop is exhausted. *)
Definition all_failed (errors : list (string * string)) : exn :=
  Exception ("All AI providers failed: " ++ error_summary errors).

Definition stats_success (c : float) (s : Stats) : Stats :=
  {| successes := successes s + 1;
     failures := failures s;
     total_cost := PrimFloat.add (total_cost s) c |}.

Definition stats_failure (s : Stats) : Stats :=
  {| successes := successes s;
     failures := failures s + 1;
     total_cost := total_cost s |}.

Definition set_stats (n : string) (s : Stats) (m : Manager) : Manager :=
  {| providers := providers m;
     provider_stats := <[n := s]> (provider_stats m);
     ai_requests := ai_requests m;
     calls := calls m |}.

Definition record_call (c : ProviderCall) (m : Manager) : Manager :=
  {| providers := providers m;
     provider_stats := provider_stats m;
     ai_requests := ai_requests m;
     calls := calls m ++ [c] |}.

(** [_log_request]: builds the row and hands it to the session. *)
Definition _log_request (user_id : option string) (ai_type provider model : string)
    (usage : option Usage) (cost : option float) (response_time_ms : option Z)
    (success : bool) (error_message : option string) (m : Manager) : Manager :=
  let log_entry :=
    {| req_user_id := user_id;
       req_ai_type := ai_type;
       req_provider := provider;
       req_model := model;
       req_prompt_tokens := option_map prompt_tokens usage;
       req_completion_tokens := option_map completion_tokens usage;
       req_total_tokens := option_map total_tokens usage;
       req_cost_usd := cost;
       req_response_time_ms := response_time_ms;
       req_success := success;
       req_error_message := error_message |} in
  {| providers := providers m;
     provider_stats := provider_stats m;
     ai_requests := ai_requests m ++ [log_entry];
     calls := calls m |}.

Section Gateway.

Variable settings : Settings.

(** The providers' side of [client.chat.completions.create] followed by
    the reads of [_call_provider] on the response: either the content
    and the usage counters, or [str(e)] of the exception raised. *)
Variable chat_completions_create : ChatRequest -> ResponseData + string.

(** The latency [int((time.time() - start_time) * 1000)] measured
    around a call. *)
Variable elapsed_ms : ProviderCall -> Z.

Definition _call_provider (p : Provider) (model : string)
    (messages : list Message) (temperature : float) (max_tokens : Z)
    (stream : bool) : ResponseData + string :=
  let plain :=
    {| chat_client := name p; chat_model := model;
       chat_messages := messages; chat_temperature := temperature;
       chat_max_tokens := max_tokens; chat_stream := stream;
       chat_extra_headers := [] |} in
  if String.eqb (name p) "groq" then chat_completions_create plain
  else if String.eqb (name p) "together" then chat_completions_create plain
  else if String.eqb (name p) "openrouter" then
    chat_completions_create
      {| chat_client := name p; chat_model := model;
         chat_messages := messages; chat_temperature := temperature;
         chat_max_tokens := max_tokens; chat_stream := stream;
         chat_extra_headers :=
           [("HTTP-Referer", FRONTEND_URL settings); ("X-Title", "NEXUS")] |}
  else inr ("Unknown provider: " ++ name p).

Section Loop.

Variable messages : list Message.
Variable ai_type : string.
Variable user_id : option string.
(** The effective temperature and max-tokens, after the defaults. *)
Variable temperature : float.
Variable requested_max_tokens : Z.
Variable stream : bool.

(** The call [generate] makes to a provider it has a model for. *)
Definition call_for (p : Provider) (model : string) : ProviderCall :=
  {| call_provider := name p;
     call_model := model;
     call_temperature := temperature;
     call_max_tokens := Py.min_int requested_max_tokens (max_tokens p);
     call_stream := stream |}.

Definition attempt (p : Provider) (model : string) : ResponseData + string :=
  _call_provider p model messages temperature
    (Py.min_int requested_max_tokens (max_tokens p)) stream.

(** The body of the [for] loop of [generate], over the providers that
    remain. [errors] is the list built by the [except] branch. *)
Fixpoint generate_loop (ps : list Provider) (errors : list (string * string))
    (m : Manager) : outcome GenerateResult * Manager :=
  match ps with
  | [] => (Raise (all_failed errors), m)
  | p :: rest =>
      (* except Exception as e: *)
      let on_exception (error_msg : string) (m : Manager) :=
        let errors := (errors ++ [(name p, error_msg)])%list in
        match provider_stats m !! name p with
        | None => (Raise (KeyError (name p)), m)
        | Some s =>
            let m := set_stats (name p) (stats_failure s) m in
            let m := _log_request user_id ai_type (name p)
                       (default "unknown" (models p !! ai_type))
                       None None None false (Some error_msg) m in
            generate_loop rest errors m
        end in
      match models p !! ai_type with
      | None => generate_loop rest errors m
      | Some model =>
          if negb (Py.str_truthy model) then generate_loop rest errors m
          else
            let m := record_call (call_for p model) m in
            match attempt p model with
            | inr error_msg => on_exception error_msg m
            | inl response_data =>
                let elapsed := elapsed_ms (call_for p model) in
                let total := total_tokens (rd_usage response_data) in
                let c := _calculate_cost total (cost_per_1k_tokens p) in
                match provider_stats m !! name p with
                | None => on_exception ("'" ++ name p ++ "'") m
                | Some s =>
                    let m := set_stats (name p) (stats_success c s) m in
                    let m := _log_request user_id ai_type (name p) model
                               (Some (rd_usage response_data)) (Some c)
                               (Some elapsed) true None m in
                    (Return {| content := rd_content response_data;
                               provider := name p;
                               model := model;
                               usage := rd_usage response_data;
                               cost := c;
                               response_time_ms := elapsed |}, m)
                end
            end
      end
  end.

End Loop.

(** [AIProviderManager.generate]. *)
Definition generate (messages : list Message) (ai_type : string)
    (user_id : option string) (temperature : option float)
    (max_tokens : option Z) (stream : bool) (m : Manager)
    : outcome GenerateResult * Manager :=
  let temperature := Py.or_float temperature (AI_TEMPERATURE settings) in
  let requested := Py.or_int max_tokens (AI_MAX_TOKENS settings) in
  generate_loop messages ai_type user_id temperature requested stream
    (sorted_by_priority (providers m)) [] m.

End Gateway.


(** ** Regular expressions

    The fragment of [re] the router's patterns are written in: literal
    text, alternation and concatenation, searched with [re.IGNORECASE]. *)

Inductive regex :=
| Lit (s : string)
| Alt (r1 r2 : regex)
| Seq (r1 r2 : regex).

(** [(w|w1|...|wn)]. *)
Fixpoint any_of (w : string) (ws : list string) : regex :=
  match ws with
  | [] => Lit w
  | w' :: ws' => Alt (Lit w) (any_of w' ws')
  end.

Module Re.

(** Consume the literal [w] at the head of [s], letters compared
    without case; the remainder of [s] on success. *)
Fixpoint eat (w s : string) : option string :=
  match w with
  | EmptyString => Some s
  | String a w' =>
      match s with
      | EmptyString => None
      | String b s' =>
          if Ascii.eqb (Py.lower_char a) (Py.lower_char b) then eat w' s'
          else None
      end
  end.

(** Match [r] at the head of [s] and go on with [k] on what remains,
    trying the alternatives left to right. *)
Fixpoint match_here (r : regex) (s : string) (k : string -> bool) : bool :=
  match r with
  | Lit w => match eat w s with Some rest => k rest | None => false end
  | Alt r1 r2 => match_here r1 s k || match_here r2 s k
  | Seq r1 r2 => match_here r1 s (fun rest => match_here r2 rest k)
  end.

(** [re.search(r, s, re.IGNORECASE)] as a truth value. *)
Fixpoint search (r : regex) (s : string) : bool :=
  match_here r s (fun _ => true) ||
  match s with
  | EmptyString => false
  | String _ s' => search r s'
  end.

End Re.

(** ** The intelligent router *)

(** Training-related keywords (route to Agnes), in the order of the
    source's dict. *)
Definition TRAINING_KEYWORDS : list (string * float) :=
  [ ("practice", 1.0); ("roleplay", 1.0); ("training", 1.0);
    ("scenario", 0.9); ("teach me", 0.9); ("learn", 0.8);
    ("how to handle", 0.9); ("what should i say", 0.9);
    ("how do i respond", 0.9); ("objection", 0.7); ("script", 0.7);
    ("agnes", 1.0); ("train", 0.8); ("rehearse", 0.9);
    ("prepare for", 0.8) ]%float.

(** Insurance/technical keywords (route to Susan). *)
Definition SUSAN_KEYWORDS : list (string * float) :=
  [ ("building code", 1.0); ("manufacturer", 0.9); ("insurance", 0.9);
    ("claim", 0.9); ("adjuster", 0.9); ("policy", 0.8); ("coverage", 0.8);
    ("GAF", 1.0); ("Owens Corning", 1.0); ("CertainTeed", 1.0);
    ("IBC", 1.0); ("IRC", 1.0); ("NFPA", 1.0);
    ("wind", 0.6); ("hail", 0.6); ("storm", 0.6); ("damage", 0.7);
    ("susan", 1.0); ("flashing", 0.8); ("underlayment", 0.8);
    ("shingles", 0.7); ("roof", 0.6); ("photo report", 0.9);
    ("iTel", 0.9); ("template", 0.7); ("documentation", 0.7);
    ("estimate", 0.7); ("complaint", 0.8); ("arbitration", 0.8) ]%float.

(** Question patterns that indicate need for expertise (Susan). *)
Definition TECHNICAL_QUESTION_PATTERNS : list regex :=
  [ Seq (Lit "what ") (Seq (any_of "is" ["are"])
      (Seq (Lit " the ") (any_of "code" ["requirement"; "guideline"])));
    Seq (Lit "how ") (Seq (any_of "do" ["does"])
      (Seq (Lit " ") (any_of "insurance" ["claim"; "policy"])));
    Seq (any_of "can" ["should"; "must"])
      (Seq (Lit " ") (any_of "i" ["we"; "they"]));
    Seq (Lit "what ") (Seq (any_of "does" ["is"])
      (Seq (Lit " ") (any_of "GAF" ["Owens Corning"; "IBC"; "IRC"])));
    any_of "wind speed" ["hail size"; "storm"] ].

(** Question patterns that indicate training need (Agnes). *)
Definition TRAINING_QUESTION_PATTERNS : list regex :=
  [ Seq (Lit "how ") (Seq (any_of "do i" ["should i"])
      (Seq (Lit " ") (any_of "handle" ["respond"; "deal with"])));
    Seq (Lit "what ") (Seq (any_of "should" ["would"; "could"])
      (Lit " i say"));
    any_of "practice" ["roleplay"; "train"; "rehearse"];
    Seq (any_of "help me" ["teach me"; "show me"])
      (Seq (Lit " ") (any_of "how to" ["to"])) ].

(** A value a context can hold under a key. [VOther] is any other
    built-in value (a list, a tuple, a dict, a set, bytes, a complex), of
    which [route] can only see the truth value: it equals no string and
    is not ordered against an int. *)
Inductive value :=
| VNone
| VBool (b : bool)
| VInt (z : Z)
| VFloat (x : float)
| VStr (s : string)
| VOther (non_empty : bool).

(** [bool(v)], the test of [if v:]. *)
Definition truthy (v : value) : bool :=
  match v with
  | VNone => false
  | VBool b => b
  | VInt z => negb (z =? 0)
  | VFloat x => Py.float_truthy x
  | VStr s => Py.str_truthy s
  | VOther non_empty => non_empty
  end.

(** [v == s] for a string [s]. *)
Definition equals_str (v : value) (s : string) : bool :=
  match v with
  | VStr t => String.eqb t s
  | _ => false
  end.

(** [v >= 3]: [None], a string or a container is not ordered against an
    int. *)
Definition at_least_3 (v : value) : outcome bool :=
  match v with
  | VInt z => Return (3 <=? z)
  | VBool b => Return (3 <=? (if b then 1 else 0))
  | VFloat x => Return (PrimFloat.leb 3 x)
  | VNone | VStr _ | VOther _ => Raise TypeError
  end.

(** The routing context: a dict. *)
Definition Context : Type := gmap string value.

(** [context.get(key)] and [context.get(key, d)]. *)
Definition get (context : Context) (key : string) : value :=
  default VNone (context !! key).

Definition get_or (context : Context) (key : string) (d : value) : value :=
  default d (context !! key).

(** The empty dict [{}]. *)
Definition empty_context : Context := ∅.

(** The reason text of a routing decision, by the rule that produced it
    and the value formatted into it. *)
Inductive Reason :=
| ExplicitMentionOfSusan
| ExplicitMentionOfAgnes
| ActiveTrainingScenario
| TrainingSessionContinuity (agnes_streak : value)
| TechnicalConsultationContinuity (susan_streak : value)
| TrainingIntentDetected (training_score : float)
| TechnicalIntentDetected (technical_score : float)
| DefaultRouting.

(** [_calculate_keyword_score]. *)
Definition _calculate_keyword_score (message : string)
    (keywords : list (string * float)) : float :=
  fold_left
    (fun score kw =>
       if Py.contains (fst kw) message then PrimFloat.add score (snd kw)
       else score)
    keywords 0%float.

(** [_check_patterns]. *)
Definition _check_patterns (message : string) (patterns : list regex) : bool :=
  existsb (fun pattern => Re.search pattern message) patterns.

(** A routing decision: [(ai_name, reason, confidence)]. *)
Definition Decision : Type := string * Reason * float.

(** Step 1 of [route]: explicit mentions. *)
Definition explicit_mention (message_lower : string) : option Decision :=
  if Py.contains "susan" message_lower && negb (Py.contains "agnes" message_lower)
  then Some ("susan", ExplicitMentionOfSusan, 1.0%float)
  else if Py.contains "agnes" message_lower && negb (Py.contains "susan" message_lower)
  then Some ("agnes", ExplicitMentionOfAgnes, 1.0%float)
  else None.

(** Steps 2 and 3 of [route]: the active training scenario and the
    continuity of the conversation. [Return None] when neither decides;
    the comparison of a message count with 3 raises when the count is
    not a number. *)
Definition context_rules (context : Context) : outcome (option Decision) :=
  if truthy (get context "active_training_scenario")
  then Return (Some ("agnes", ActiveTrainingScenario, 1.0%float))
  else
    with_agnes ←
      (if equals_str (get context "last_ai") "agnes" then
         let agnes_streak := get_or context "agnes_message_count" (VInt 0) in
         long ← at_least_3 agnes_streak;
         Return (if long : bool
                 then Some ("agnes", TrainingSessionContinuity agnes_streak,
                            0.9%float)
                 else None)
       else Return None);
    match with_agnes with
    | Some decision => Return (Some decision)
    | None =>
        if equals_str (get context "last_ai") "susan" then
          let susan_streak := get_or context "susan_message_count" (VInt 0) in
          long ← at_least_3 susan_streak;
          Return (if long : bool
                  then Some ("susan",
                             TechnicalConsultationContinuity susan_streak,
                             0.9%float)
                  else None)
        else Return None
    end.

(** Steps 4 and 5 of [route]: keyword scores and pattern bonuses,
    [(training_score, technical_score)]. *)
Definition message_scores (message_lower : string) : float * float :=
  let training_score := _calculate_keyword_score message_lower TRAINING_KEYWORDS in
  let technical_score := _calculate_keyword_score message_lower SUSAN_KEYWORDS in
  let training_pattern_match :=
    _check_patterns message_lower TRAINING_QUESTION_PATTERNS in
  let technical_pattern_match :=
    _check_patterns message_lower TECHNICAL_QUESTION_PATTERNS in
  let training_score :=
    if training_pattern_match then PrimFloat.add training_score 0.5
    else training_score in
  let technical_score :=
    if technical_pattern_match then PrimFloat.add technical_score 0.5
    else technical_score in
  (training_score, technical_score).

(** Step 6 of [route]: context-based adjustments. *)
Definition context_adjustments (context : Context) (scores : float * float)
    : float * float :=
  let '(training_score, technical_score) := scores in
  let training_score :=
    if truthy (get context "recent_scenario_completion")
    then PrimFloat.add training_score 0.3
    else training_score in
  let technical_score :=
    if truthy (get context "recent_claim_discussion")
    then PrimFloat.add technical_score 0.3
    else technical_score in
  (training_score, technical_score).

(** Step 7 of [route]. *)
Definition decide_by_scores (training_score technical_score : float)
    : outcome Decision :=
  if PrimFloat.ltb technical_score training_score then
    q ← Py.truediv training_score
          (PrimFloat.add (PrimFloat.add training_score technical_score) 0.1);
    Return ("agnes", TrainingIntentDetected training_score, Py.min_float q 1.0)
  else if PrimFloat.ltb training_score technical_score then
    q ← Py.truediv technical_score
          (PrimFloat.add (PrimFloat.add training_score technical_score) 0.1);
    Return ("susan", TechnicalIntentDetected technical_score, Py.min_float q 1.0)
  else
    Return ("susan", DefaultRouting, 0.5%float).

(** [IntelligentRouter.route]. *)
Definition route (message : string) (context : option Context)
    : outcome Decision :=
  let context := default empty_context context in
  let message_lower := Py.lower message in
  match explicit_mention message_lower with
  | Some decision => Return decision
  | None =>
      by_context ← context_rules context;
      match by_context with
      | Some decision => Return decision
      | None =>
          let '(training_score, technical_score) :=
            context_adjustments context (message_scores message_lower) in
          decide_by_scores training_score technical_score
      end
  end.


(** [_generate_handoff_message]. *)
Definition _generate_handoff_message (from_ai to_ai : string) : string :=
  if String.eqb from_ai "susan" && String.eqb to_ai "agnes" then
    "It sounds like you'd like to practice this! Let me connect you with Agnes for some roleplay training. She's great at this!"
  else if String.eqb from_ai "agnes" && String.eqb to_ai "susan" then
    "Great practice! For the actual technical details and insurance specifics, let me hand you over to Susan. She's the expert on real-world claims!"
  else "Let me connect you with " ++ Py.title to_ai ++ " for this.".

(** The dict [suggest_handoff] returns. *)
Record Handoff := {
  suggested_ai : string;
  reason : Reason;
  confidence : float;
  message : string
}.

(** [IntelligentRouter.suggest_handoff]. *)
Definition suggest_handoff (current_ai message : string)
    (conversation_length : Z) : outcome (option Handoff) :=
  if conversation_length <? 3 then Return None
  else
    '(optimal_ai, reason, confidence) ← route message None;
    if negb (String.eqb optimal_ai current_ai) && PrimFloat.leb 0.8 confidence
    then Return (Some {| suggested_ai := optimal_ai;
                         reason := reason;
                         confidence := confidence;
                         message := _generate_handoff_message current_ai optimal_ai |})
    else Return None.

(** * Properties of the completion gateway *)

(** ** The order in which providers are tried *)

Definition has_priority (k : Z) (p : Provider) : bool := priority p =? k.

Definition priority_le (p q : Provider) : Prop := priority p <= priority q.

(** [ps] lists the providers [l] by ascending priority, providers of equal
    priority in the order they have in [l]. *)
Definition priority_order (l ps : list Provider) : Prop :=
  StronglySorted priority_le ps /\
  forall k, List.filter (has_priority k) ps = List.filter (has_priority k) l.

Lemma insert_by_priority_perm x l :
  Permutation (insert_by_priority x l) (x :: l).
Proof.
  induction l as [|y l IH]; simpl.
  - apply Permutation_refl.
  - destruct (priority x <=? priority y).
    + apply Permutation_refl.
    + eapply perm_trans; [apply perm_skip, IH | apply perm_swap].
Qed.

Lemma sorted_by_priority_perm l : Permutation (sorted_by_priority l) l.
Proof.
  induction l as [|x l IH]; simpl.
  - apply perm_nil.
  - eapply perm_trans; [apply insert_by_priority_perm | apply perm_skip, IH].
Qed.

Lemma insert_by_priority_sorted x l :
  StronglySorted priority_le l ->
  StronglySorted priority_le (insert_by_priority x l).
Proof.
  induction 1 as [|y l Hl IH Hy]; simpl.
  - constructor; constructor.
  - destruct (Z.leb_spec (priority x) (priority y)) as [Hxy|Hxy].
    + constructor; [constructor; assumption|].
      constructor; [exact Hxy|].
      eapply List.Forall_impl; [|exact Hy].
      intros z Hz. unfold priority_le in *. lia.
    + constructor; [exact IH|].
      apply (Permutation_Forall (Permutation_sym (insert_by_priority_perm x l))).
      constructor; [unfold priority_le; lia | exact Hy].
Qed.

Lemma sorted_by_priority_sorted l :
  StronglySorted priority_le (sorted_by_priority l).
Proof.
  induction l as [|x l IH]; simpl.
  - constructor.
  - apply insert_by_priority_sorted, IH.
Qed.

(** Inserting in front of the first provider of greater or equal priority
    keeps [x] ahead of the providers it ties with. *)
Lemma insert_by_priority_filter k x l :
  StronglySorted priority_le l ->
  List.filter (has_priority k) (insert_by_priority x l) =
  List.filter (has_priority k) (x :: l).
Proof.
  induction 1 as [|y l Hl IH Hy]; [reflexivity|].
  cbn [insert_by_priority].
  destruct (Z.leb_spec (priority x) (priority y)) as [Hxy|Hxy]; [reflexivity|].
  cbn [List.filter] in *. rewrite IH.
  unfold has_priority.
  destruct (Z.eqb_spec (priority y) k), (Z.eqb_spec (priority x) k);
    try reflexivity.
  lia.
Qed.

Lemma sorted_by_priority_stable k l :
  List.filter (has_priority k) (sorted_by_priority l) =
  List.filter (has_priority k) l.
Proof.
  induction l as [|x l IH]; [reflexivity|].
  cbn [sorted_by_priority].
  rewrite insert_by_priority_filter by apply sorted_by_priority_sorted.
  cbn [List.filter]. rewrite IH. reflexivity.
Qed.

Lemma sorted_by_priority_order l : priority_order l (sorted_by_priority l).
Proof.
  split; [apply sorted_by_priority_sorted | intro k; apply sorted_by_priority_stable].
Qed.

(** Two lists in ascending priority with the same providers, in the same
    order, at every priority are the same list: a stable sort by priority
    has one possible result. *)
Lemma sorted_filter_eq l1 : forall l2,
  StronglySorted priority_le l1 ->
  StronglySorted priority_le l2 ->
  (forall k, List.filter (has_priority k) l1 = List.filter (has_priority k) l2) ->
  l1 = l2.
Proof.
  assert (Hhead : forall x l1 l2,
    StronglySorted priority_le (x :: l1) ->
    StronglySorted priority_le l2 ->
    (forall k, List.filter (has_priority k) (x :: l1) =
               List.filter (has_priority k) l2) ->
    exists y l2', l2 = y :: l2' /\ priority x <= priority y).
  { intros x t1 t2 H H2 HF.
    destruct t2 as [|y t2].
    - specialize (HF (priority x)). cbn in HF.
      unfold has_priority in HF. rewrite Z.eqb_refl in HF. discriminate.
    - exists y, t2. split; [reflexivity|].
      assert (Hin : In y (x :: t1)).
      { specialize (HF (priority y)).
        assert (Hy : In y (List.filter (has_priority (priority y)) (y :: t2))).
        { cbn. unfold has_priority at 1. rewrite Z.eqb_refl. left; reflexivity. }
        rewrite <- HF in Hy. apply List.filter_In in Hy. tauto. }
      destruct Hin as [->|Hin]; [lia|].
      apply StronglySorted_inv in H as [_ Hall].
      rewrite List.Forall_forall in Hall. apply Hall, Hin. }
  induction l1 as [|x l1 IH]; intros l2 H1 H2 HF.
  - destruct l2 as [|y l2]; [reflexivity|].
    specialize (HF (priority y)). cbn in HF.
    unfold has_priority in HF. rewrite Z.eqb_refl in HF. discriminate.
  - destruct (Hhead x l1 l2 H1 H2 HF) as (y & l2' & -> & Hxy).
    destruct (Hhead y l2' (x :: l1) H2 H1 (fun k => eq_sym (HF k)))
      as (x' & l1' & Heq & Hyx).
    injection Heq as <- <-.
    assert (Hp : priority x = priority y) by lia.
    assert (Hx : has_priority (priority x) x = true)
      by (unfold has_priority; apply Z.eqb_refl).
    assert (Hy : has_priority (priority x) y = true)
      by (unfold has_priority; rewrite Hp; apply Z.eqb_refl).
    pose proof (HF (priority x)) as Hk. cbn [List.filter] in Hk.
    rewrite Hx, Hy in Hk. injection Hk as <- _.
    f_equal. apply IH.
    + apply StronglySorted_inv in H1. tauto.
    + apply StronglySorted_inv in H2. tauto.
    + intro k. specialize (HF k). cbn in HF.
      destruct (has_priority k x); [injection HF; auto | exact HF].
Qed.

Lemma priority_order_unique l ps :
  priority_order l ps -> ps = sorted_by_priority l.
Proof.
  intros [Hs Hf]. apply sorted_filter_eq.
  - exact Hs.
  - apply sorted_by_priority_sorted.
  - intro k. rewrite Hf, sorted_by_priority_stable. reflexivity.
Qed.

(** ** One turn of the failover loop *)

(** The model [generate] resolves for a provider: [None] when the provider
    is skipped ([provider["models"].get(ai_type)] is missing or empty). *)
Definition configured_model (ai_type : string) (p : Provider) : option string :=
  match models p !! ai_type with
  | Some model => if Py.str_truthy model then Some model else None
  | None => None
  end.

Definition configured (ai_type : string) (p : Provider) : bool :=
  match configured_model ai_type p with Some _ => true | None => false end.

(** Every registered provider has its entry in [provider_stats], as
    [__init__] builds it. *)
Definition stats_cover (m : Manager) : Prop :=
  forall p, In p (providers m) -> is_Some (provider_stats m !! name p).

Section LoopFacts.

Context (settings : Settings)
        (api : ChatRequest -> ResponseData + string)
        (elapsed : ProviderCall -> Z)
        (messages : list Message) (ai_type : string)
        (user_id : option string) (temperature : float)
        (requested : Z) (stream : bool).

Local Abbreviation loop :=
  (generate_loop settings api elapsed messages ai_type user_id
                 temperature requested stream).
Local Abbreviation try_provider :=
  (attempt settings api messages temperature requested stream).
Local Abbreviation the_call := (call_for temperature requested stream).

(** The manager after a failed attempt on [p]. *)
Definition after_failure (p : Provider) (model error_msg : string)
    (s : Stats) (m : Manager) : Manager :=
  _log_request user_id ai_type (name p) model None None None false
    (Some error_msg)
    (set_stats (name p) (stats_failure s) (record_call (the_call p model) m)).

(** What [generate] returns when [p] answers [rd]. *)
Definition result_of (p : Provider) (model : string) (rd : ResponseData)
    : GenerateResult :=
  {| content := rd_content rd;
     provider := name p;
     model := model;
     usage := rd_usage rd;
     cost := _calculate_cost (total_tokens (rd_usage rd)) (cost_per_1k_tokens p);
     response_time_ms := elapsed (the_call p model) |}.

(** The manager after a successful attempt on [p]. *)
Definition after_success (p : Provider) (model : string) (rd : ResponseData)
    (s : Stats) (m : Manager) : Manager :=
  _log_request user_id ai_type (name p) model (Some (rd_usage rd))
    (Some (cost (result_of p model rd)))
    (Some (response_time_ms (result_of p model rd))) true None
    (set_stats (name p) (stats_success (cost (result_of p model rd)) s)
       (record_call (the_call p model) m)).

Lemma configured_model_lookup p model :
  configured_model ai_type p = Some model ->
  models p !! ai_type = Some model /\ Py.str_truthy model = true.
Proof.
  unfold configured_model.
  destruct (models p !! ai_type) as [x|]; [|discriminate].
  destruct (Py.str_truthy x) eqn:E; [|discriminate].
  intros [= <-]. auto.
Qed.

Lemma loop_skip p rest errors m :
  configured_model ai_type p = None ->
  loop (p :: rest) errors m = loop rest errors m.
Proof.
  unfold configured_model. cbn [generate_loop].
  destruct (models p !! ai_type) as [x|]; [|reflexivity].
  destruct (Py.str_truthy x); [discriminate | reflexivity].
Qed.

Lemma loop_failure p rest errors m model error_msg s :
  configured_model ai_type p = Some model ->
  try_provider p model = inr error_msg ->
  provider_stats m !! name p = Some s ->
  loop (p :: rest) errors m =
  loop rest (errors ++ [(name p, error_msg)]) (after_failure p model error_msg s m).
Proof.
  intros [Hm Ht]%configured_model_lookup Ha Hs.
  cbn [generate_loop]. rewrite Hm, Ht. cbn [negb].
  rewrite Ha. cbn [record_call provider_stats]. rewrite Hs.
  cbn [default]. reflexivity.
Qed.

Lemma loop_success p rest errors m model rd s :
  configured_model ai_type p = Some model ->
  try_provider p model = inl rd ->
  provider_stats m !! name p = Some s ->
  loop (p :: rest) errors m =
  (Return (result_of p model rd), after_success p model rd s m).
Proof.
  intros [Hm Ht]%configured_model_lookup Ha Hs.
  cbn [generate_loop]. rewrite Hm, Ht. cbn [negb].
  rewrite Ha. cbn [record_call provider_stats]. rewrite Hs.
  reflexivity.
Qed.

(** Without a stats entry for [p] the [except] branch itself raises. *)
Lemma loop_key_error p rest errors m model :
  configured_model ai_type p = Some model ->
  provider_stats m !! name p = None ->
  loop (p :: rest) errors m =
  (Raise (KeyError (name p)), record_call (the_call p model) m).
Proof.
  intros [Hm Ht]%configured_model_lookup Hs.
  cbn [generate_loop]. rewrite Hm, Ht. cbn [negb].
  destruct (try_provider p model);
    cbn [record_call provider_stats]; rewrite Hs; reflexivity.
Qed.

(** ** Accounting of one run of the loop *)

(** The calls made while going through [ps] when none of them answers:
    one per provider that has a model, in order. *)
Definition calls_for (ps : list Provider) : list ProviderCall :=
  flat_map (fun q => match configured_model ai_type q with
                     | Some model => [the_call q model]
                     | None => []
                     end) ps.

(** The entries the [except] branch collects for the providers of [ps]
    whose call raises. *)
Definition errors_of (ps : list Provider) : list (string * string) :=
  flat_map (fun q => match configured_model ai_type q with
                     | Some model =>
                         match try_provider q model with
                         | inr e => [(name q, e)]
                         | inl _ => []
                         end
                     | None => []
                     end) ps.

(** [q] cannot serve the request: it has no model for the persona, or
    its call raises. *)
Definition fails (q : Provider) : Prop :=
  forall model, configured_model ai_type q = Some model ->
                exists e, try_provider q model = inr e.

End LoopFacts.

Definition successes_of (m : Manager) (n : string) : Z :=
  match provider_stats m !! n with Some s => successes s | None => 0 end.

Definition failures_of (m : Manager) (n : string) : Z :=
  match provider_stats m !! n with Some s => failures s | None => 0 end.

(** Number of rows of provider [n] with success flag [b]. *)
Definition count_rows (n : string) (b : bool) (rows : list AIRequest) : Z :=
  Z.of_nat (length (List.filter
    (fun r => String.eqb (req_provider r) n && Bool.eqb (req_success r) b) rows)).

(** Number of rows of provider [n]: the attempts recorded for it. *)
Definition recorded (n : string) (rows : list AIRequest) : Z :=
  Z.of_nat (length (List.filter (fun r => String.eqb (req_provider r) n) rows)).

(** From [m] to [m']: the calls [tried] were made, each left the row at
    the same position of [rows], and each moved exactly one counter of its
    provider by one, as its row says. *)
Record accounted (m m' : Manager) (tried : list ProviderCall)
    (rows : list AIRequest) : Prop := {
  acc_providers : providers m' = providers m;
  acc_calls : calls m' = (calls m ++ tried)%list;
  acc_rows : ai_requests m' = (ai_requests m ++ rows)%list;
  acc_one_row : Forall2 (fun c r => req_provider r = call_provider c /\
                                    req_model r = call_model c) tried rows;
  acc_keys : forall n, is_Some (provider_stats m !! n) ->
                       is_Some (provider_stats m' !! n);
  acc_successes : forall n,
    successes_of m' n = successes_of m n + count_rows n true rows;
  acc_failures : forall n,
    failures_of m' n = failures_of m n + count_rows n false rows
}.

(** The ledger invariant: for every provider name, successes plus failures
    is the number of attempts recorded for it. *)
Definition ledger_consistent (m : Manager) : Prop :=
  forall n, successes_of m n + failures_of m n = recorded n (ai_requests m).

Lemma count_rows_app n b r1 r2 :
  count_rows n b (r1 ++ r2) = count_rows n b r1 + count_rows n b r2.
Proof.
  unfold count_rows. rewrite List.filter_app, List.length_app. lia.
Qed.

Lemma recorded_app n r1 r2 :
  recorded n (r1 ++ r2) = recorded n r1 + recorded n r2.
Proof.
  unfold recorded. rewrite List.filter_app, List.length_app. lia.
Qed.

Lemma recorded_split n rows :
  recorded n rows = count_rows n true rows + count_rows n false rows.
Proof.
  unfold recorded, count_rows.
  induction rows as [|r rows IH]; [reflexivity|].
  cbn [List.filter].
  destruct (String.eqb (req_provider r) n), (req_success r);
    cbn [andb Bool.eqb length]; lia.
Qed.

Lemma accounted_refl m : accounted m m [] [].
Proof.
  split; try reflexivity.
  - symmetry; apply app_nil_r.
  - symmetry; apply app_nil_r.
  - constructor.
  - auto.
  - intro n. unfold count_rows. cbn. lia.
  - intro n. unfold count_rows. cbn. lia.
Qed.

Lemma accounted_trans m1 m2 m3 t1 t2 r1 r2 :
  accounted m1 m2 t1 r1 -> accounted m2 m3 t2 r2 ->
  accounted m1 m3 (t1 ++ t2) (r1 ++ r2).
Proof.
  intros [] []. split.
  - congruence.
  - rewrite app_assoc. congruence.
  - rewrite app_assoc. congruence.
  - apply Forall2_app; assumption.
  - auto.
  - intro n. rewrite count_rows_app. rewrite acc_successes1, acc_successes0. lia.
  - intro n. rewrite count_rows_app. rewrite acc_failures1, acc_failures0. lia.
Qed.

Lemma accounted_consistent m m' tried rows :
  accounted m m' tried rows -> ledger_consistent m -> ledger_consistent m'.
Proof.
  intros [] Hm n.
  rewrite acc_successes0, acc_failures0, acc_rows0, recorded_app.
  rewrite (recorded_split n rows).
  specialize (Hm n). lia.
Qed.

Section LoopAccounting.

Context (settings : Settings)
        (api : ChatRequest -> ResponseData + string)
        (elapsed : ProviderCall -> Z)
        (messages : list Message) (ai_type : string)
        (user_id : option string) (temperature : float)
        (requested : Z) (stream : bool).

Local Abbreviation loop :=
  (generate_loop settings api elapsed messages ai_type user_id
                 temperature requested stream).
Local Abbreviation try_provider :=
  (attempt settings api messages temperature requested stream).
Local Abbreviation the_call := (call_for temperature requested stream).
Local Abbreviation failed_on :=
  (after_failure ai_type user_id temperature requested stream).
Local Abbreviation served_by :=
  (after_success elapsed ai_type user_id temperature requested stream).
Local Abbreviation answer := (result_of elapsed temperature requested stream).

Lemma count_rows_one n b r :
  count_rows n b [r] =
  if String.eqb (req_provider r) n && Bool.eqb (req_success r) b then 1 else 0.
Proof.
  unfold count_rows. cbn [List.filter].
  destruct (String.eqb (req_provider r) n && Bool.eqb (req_success r) b);
    reflexivity.
Qed.

Lemma after_failure_accounted p model e s m :
  provider_stats m !! name p = Some s ->
  exists row,
    req_success row = false /\
    accounted m (failed_on p model e s m) [the_call p model] [row].
Proof.
  intro Hs. eexists. split.
  2: { constructor.
    - reflexivity.
    - reflexivity.
    - reflexivity.
    - repeat constructor.
    - intros n Hn. cbn. rewrite lookup_insert. case_decide; eauto.
    - intro n. rewrite count_rows_one. unfold successes_of. cbn.
      rewrite andb_false_r, lookup_insert.
      case_decide; subst; [rewrite Hs|]; cbn; lia.
    - intro n. rewrite count_rows_one. unfold failures_of. cbn.
      rewrite andb_true_r, lookup_insert.
      case_decide as Hn.
      + subst. rewrite Hs, String.eqb_refl. reflexivity.
      + apply String.eqb_neq in Hn. rewrite Hn. lia. }
  reflexivity.
Qed.

Lemma after_success_accounted p model rd s m :
  provider_stats m !! name p = Some s ->
  exists row,
    req_success row = true /\
    accounted m (served_by p model rd s m) [the_call p model] [row].
Proof.
  intro Hs. eexists. split.
  2: { constructor.
    - reflexivity.
    - reflexivity.
    - reflexivity.
    - repeat constructor.
    - intros n Hn. cbn. rewrite lookup_insert. case_decide; eauto.
    - intro n. rewrite count_rows_one. unfold successes_of. cbn.
      rewrite andb_true_r, lookup_insert.
      case_decide as Hn.
      + subst. rewrite Hs, String.eqb_refl. reflexivity.
      + apply String.eqb_neq in Hn. rewrite Hn. lia.
    - intro n. rewrite count_rows_one. unfold failures_of. cbn.
      rewrite andb_false_r, lookup_insert.
      case_decide; subst; [rewrite Hs|]; cbn; lia. }
  reflexivity.
Qed.

(** What one run of the loop over [ps] does: it stops after a prefix
    [pre] of [ps], having called exactly the providers of [pre] that
    have a model, with one row and one counter move per call. *)
Lemma loop_accounted ps : forall errors m,
  (forall q, In q ps -> is_Some (provider_stats m !! name q)) ->
  exists pre post rows,
    ps = (pre ++ post)%list /\
    accounted m (snd (loop ps errors m)) (calls_for ai_type temperature requested stream pre) rows.
Proof.
  induction ps as [|p ps IH]; intros errors m Hcover.
  - exists [], [], []. split; [reflexivity | apply accounted_refl].
  - destruct (configured_model ai_type p) as [model|] eqn:Hc.
    + destruct (Hcover p (or_introl eq_refl)) as [s Hs].
      destruct (try_provider p model) as [rd|e] eqn:Ha.
      * rewrite (loop_success _ _ _ _ _ _ _ _ _ _ _ _ _ _ _ _ Hc Ha Hs).
        destruct (after_success_accounted p model rd s m Hs) as (row & _ & Hacc).
        exists [p], ps, [row]. split; [reflexivity|].
        unfold calls_for. cbn [flat_map]. rewrite Hc. exact Hacc.
      * rewrite (loop_failure _ _ _ _ _ _ _ _ _ _ _ _ _ _ _ _ Hc Ha Hs).
        destruct (after_failure_accounted p model e s m Hs) as (row & _ & Hacc).
        destruct (IH (errors ++ [(name p, e)])%list (failed_on p model e s m))
          as (pre & post & rows & -> & Hrest).
        { intros q Hq. apply (acc_keys _ _ _ _ Hacc), Hcover. right; exact Hq. }
        exists (p :: pre), post, (row :: rows). split; [reflexivity|].
        unfold calls_for. cbn [flat_map]. rewrite Hc.
        apply (accounted_trans _ _ _ _ _ _ _ Hacc Hrest).
    + rewrite (loop_skip _ _ _ _ _ _ _ _ _ _ _ _ _ Hc).
      destruct (IH errors m) as (pre & post & rows & -> & Hrest).
      { intros q Hq. apply Hcover. right; exact Hq. }
      exists (p :: pre), post, rows. split; [reflexivity|].
      unfold calls_for. cbn [flat_map]. rewrite Hc. exact Hrest.
Qed.

(** *** The providers a run goes through, by what they answer *)

(** [p] has a model for the persona and its call returns. *)
Definition answers (p : Provider) : bool :=
  match configured_model ai_type p with
  | Some model =>
      match try_provider p model with inl _ => true | inr _ => false end
  | None => false
  end.

(** The providers the [for] loop goes through: those of [ps] up to and
    including the first one that answers, all of [ps] when none does. *)
Fixpoint reached (ps : list Provider) : list Provider :=
  match ps with
  | [] => []
  | p :: rest => if answers p then [p] else p :: reached rest
  end.

(** The row the attempt on [p] hands to [_log_request]. *)
Definition row_for (p : Provider) (model : string) : AIRequest :=
  match try_provider p model with
  | inl rd =>
      {| req_user_id := user_id;
         req_ai_type := ai_type;
         req_provider := name p;
         req_model := model;
         req_prompt_tokens := Some (prompt_tokens (rd_usage rd));
         req_completion_tokens := Some (completion_tokens (rd_usage rd));
         req_total_tokens := Some (total_tokens (rd_usage rd));
         req_cost_usd := Some (cost (answer p model rd));
         req_response_time_ms := Some (response_time_ms (answer p model rd));
         req_success := true;
         req_error_message := None |}
  | inr e =>
      {| req_user_id := user_id;
         req_ai_type := ai_type;
         req_provider := name p;
         req_model := model;
         req_prompt_tokens := None;
         req_completion_tokens := None;
         req_total_tokens := None;
         req_cost_usd := None;
         req_response_time_ms := None;
         req_success := false;
         req_error_message := Some e |}
  end.

(** One row per provider of [ps] that has a model, in order. *)
Definition rows_for (ps : list Provider) : list AIRequest :=
  flat_map (fun q => match configured_model ai_type q with
                     | Some model => [row_for q model]
                     | None => []
                     end) ps.

Lemma answers_unconfigured p :
  configured_model ai_type p = None -> answers p = false.
Proof. unfold answers. intros ->. reflexivity. Qed.

Lemma answers_failure p model e :
  configured_model ai_type p = Some model -> try_provider p model = inr e ->
  answers p = false.
Proof. unfold answers. intros -> ->. reflexivity. Qed.

Lemma answers_success p model rd :
  configured_model ai_type p = Some model -> try_provider p model = inl rd ->
  answers p = true.
Proof. unfold answers. intros -> ->. reflexivity. Qed.

Lemma reached_is_prefix ps : exists post, ps = (reached ps ++ post)%list.
Proof.
  induction ps as [|p ps [post IH]]; [exists []; reflexivity|].
  cbn [reached]. destruct (answers p).
  - exists ps. reflexivity.
  - exists post. cbn [app]. rewrite <- IH. reflexivity.
Qed.

Lemma after_failure_row p model e s m :
  try_provider p model = inr e ->
  provider_stats m !! name p = Some s ->
  accounted m (failed_on p model e s m) [the_call p model] [row_for p model].
Proof.
  intros Ha Hs. unfold row_for. rewrite Ha. constructor.
  - reflexivity.
  - reflexivity.
  - reflexivity.
  - repeat constructor.
  - intros n Hn. cbn. rewrite lookup_insert. case_decide; eauto.
  - intro n. rewrite count_rows_one. unfold successes_of. cbn.
    rewrite andb_false_r, lookup_insert.
    case_decide; subst; [rewrite Hs|]; cbn; lia.
  - intro n. rewrite count_rows_one. unfold failures_of. cbn.
    rewrite andb_true_r, lookup_insert.
    case_decide as Hn.
    + subst. rewrite Hs, String.eqb_refl. reflexivity.
    + apply String.eqb_neq in Hn. rewrite Hn. lia.
Qed.

Lemma after_success_row p model rd s m :
  try_provider p model = inl rd ->
  provider_stats m !! name p = Some s ->
  accounted m (served_by p model rd s m) [the_call p model] [row_for p model].
Proof.
  intros Ha Hs. unfold row_for. rewrite Ha. constructor.
  - reflexivity.
  - reflexivity.
  - reflexivity.
  - repeat constructor.
  - intros n Hn. cbn. rewrite lookup_insert. case_decide; eauto.
  - intro n. rewrite count_rows_one. unfold successes_of. cbn.
    rewrite andb_true_r, lookup_insert.
    case_decide as Hn.
    + subst. rewrite Hs, String.eqb_refl. reflexivity.
    + apply String.eqb_neq in Hn. rewrite Hn. lia.
  - intro n. rewrite count_rows_one. unfold failures_of. cbn.
    rewrite andb_false_r, lookup_insert.
    case_decide; subst; [rewrite Hs|]; cbn; lia.
Qed.

(** One run of the loop calls the providers reached that have a model,
    and leaves the row of each, nothing else. *)
Lemma loop_ledger ps : forall errors m,
  (forall q, In q ps -> is_Some (provider_stats m !! name q)) ->
  accounted m (snd (loop ps errors m))
    (calls_for ai_type temperature requested stream (reached ps))
    (rows_for (reached ps)).
Proof.
  induction ps as [|p ps IH]; intros errors m Hcover.
  - apply accounted_refl.
  - cbn [reached].
    destruct (configured_model ai_type p) as [model|] eqn:Hc.
    + destruct (Hcover p (or_introl eq_refl)) as [s Hs].
      destruct (try_provider p model) as [rd|e] eqn:Ha.
      * rewrite (loop_success _ _ _ _ _ _ _ _ _ _ _ _ _ _ _ _ Hc Ha Hs).
        rewrite (answers_success p model rd Hc Ha).
        unfold calls_for, rows_for. cbn [flat_map]. rewrite Hc.
        apply (after_success_row p model rd s m Ha Hs).
      * rewrite (loop_failure _ _ _ _ _ _ _ _ _ _ _ _ _ _ _ _ Hc Ha Hs).
        rewrite (answers_failure p model e Hc Ha).
        pose proof (after_failure_row p model e s m Ha Hs) as Hacc.
        unfold calls_for, rows_for. cbn [flat_map]. rewrite Hc.
        apply (accounted_trans _ _ _ _ _ _ _ Hacc). apply IH.
        intros q Hq. apply (acc_keys _ _ _ _ Hacc), Hcover. right; exact Hq.
    + rewrite (loop_skip _ _ _ _ _ _ _ _ _ _ _ _ _ Hc).
      rewrite (answers_unconfigured p Hc).
      unfold calls_for, rows_for. cbn [flat_map]. rewrite Hc.
      apply IH. intros q Hq. apply Hcover. right; exact Hq.
Qed.

(** The outcome of the run tells where it stopped: it returns the answer
    of the last provider reached, all the providers before having failed
    or been skipped; it raises after all of [ps], none having answered. *)
Lemma loop_stops ps : forall errors m,
  (forall q, In q ps -> is_Some (provider_stats m !! name q)) ->
  match fst (loop ps errors m) with
  | Return r =>
      exists before p model rd,
        reached ps = (before ++ [p])%list /\
        Forall (fun q => answers q = false) before /\
        configured_model ai_type p = Some model /\
        try_provider p model = inl rd /\
        r = answer p model rd
  | Raise _ =>
      reached ps = ps /\ Forall (fun q => answers q = false) ps
  end.
Proof.
  induction ps as [|p ps IH]; intros errors m Hcover.
  - cbn. split; [reflexivity | constructor].
  - cbn [reached].
    destruct (configured_model ai_type p) as [model|] eqn:Hc.
    + destruct (Hcover p (or_introl eq_refl)) as [s Hs].
      destruct (try_provider p model) as [rd|e] eqn:Ha.
      * rewrite (loop_success _ _ _ _ _ _ _ _ _ _ _ _ _ _ _ _ Hc Ha Hs).
        rewrite (answers_success p model rd Hc Ha). cbn [fst].
        exists [], p, model, rd. repeat split; auto.
      * rewrite (loop_failure _ _ _ _ _ _ _ _ _ _ _ _ _ _ _ _ Hc Ha Hs).
        rewrite (answers_failure p model e Hc Ha).
        pose proof (after_failure_row p model e s m Ha Hs) as Hacc.
        specialize (IH (errors ++ [(name p, e)])%list
                       (failed_on p model e s m)).
        destruct (fst (loop ps _ _)) as [r|x].
        -- destruct IH as (before & q & model' & rd & Hr & Hb & Hq & Hrd & ->).
           { intros q Hq. apply (acc_keys _ _ _ _ Hacc), Hcover.
             right; exact Hq. }
           exists (p :: before), q, model', rd. rewrite Hr.
           repeat split; auto. constructor; [|exact Hb].
           apply (answers_failure p model e Hc Ha).
        -- destruct IH as [Hr Hall].
           { intros q Hq. apply (acc_keys _ _ _ _ Hacc), Hcover.
             right; exact Hq. }
           rewrite Hr. split; [reflexivity|]. constructor; [|exact Hall].
           apply (answers_failure p model e Hc Ha).
    + rewrite (loop_skip _ _ _ _ _ _ _ _ _ _ _ _ _ Hc).
      rewrite (answers_unconfigured p Hc).
      specialize (IH errors m).
      destruct (fst (loop ps errors m)) as [r|x].
      * destruct IH as (before & q & model' & rd & Hr & Hb & Hq & Hrd & ->).
        { intros q Hq. apply Hcover. right; exact Hq. }
        exists (p :: before), q, model', rd. rewrite Hr.
        repeat split; auto. constructor; [|exact Hb].
        apply (answers_unconfigured p Hc).
      * destruct IH as [Hr Hall].
        { intros q Hq. apply Hcover. right; exact Hq. }
        rewrite Hr. split; [reflexivity|]. constructor; [|exact Hall].
        apply (answers_unconfigured p Hc).
Qed.

(** Each provider reached that has a model has its row, in order, with
    the flag of what it answered. *)
Lemma rows_for_tried ps :
  Forall2 (fun q row => req_provider row = name q /\
                        req_user_id row = user_id /\
                        req_ai_type row = ai_type /\
                        req_success row = answers q)
          (List.filter (configured ai_type) ps) (rows_for ps).
Proof.
  induction ps as [|p ps IH]; [constructor|].
  unfold rows_for, configured. cbn [flat_map List.filter].
  destruct (configured_model ai_type p) as [model|] eqn:Hc; [|exact IH].
  constructor; [|exact IH].
  unfold row_for. destruct (try_provider p model) as [rd|e] eqn:Ha.
  - rewrite (answers_success p model rd Hc Ha). repeat split.
  - rewrite (answers_failure p model e Hc Ha). repeat split.
Qed.

(** The rows of one provider name are the providers tried under it. *)
Lemma rows_for_recorded n ps :
  recorded n (rows_for ps) =
  Z.of_nat (length (List.filter (fun q => String.eqb (name q) n)
                      (List.filter (configured ai_type) ps))).
Proof.
  unfold recorded. induction ps as [|p ps IH]; [reflexivity|].
  unfold rows_for, configured. cbn [flat_map List.filter].
  destruct (configured_model ai_type p) as [model|] eqn:Hc; [|exact IH].
  cbn [app List.filter].
  replace (req_provider (row_for p model)) with (name p)
    by (unfold row_for; destruct (try_provider p model); reflexivity).
  destruct (String.eqb (name p) n); [|exact IH].
  cbn [length]. rewrite !Nat2Z.inj_succ. f_equal. exact IH.
Qed.

End LoopAccounting.

(** ** Managers built by [__init__] and used through [generate] *)

Inductive reachable : Manager -> Prop :=
| reachable_init ps : reachable (make_manager ps)
| reachable_generate settings api elapsed messages ai_type user_id
    temperature max_tokens stream m :
    reachable m ->
    reachable (snd (generate settings api elapsed messages ai_type user_id
                             temperature max_tokens stream m)).

Lemma fold_insert_new_stats ps : forall (m0 : gmap string Stats) n,
  fold_left (fun m p => <[name p := new_stats]> m) ps m0 !! n =
  if existsb (fun p => String.eqb (name p) n) ps then Some new_stats
  else m0 !! n.
Proof.
  induction ps as [|p ps IH]; intros m0 n; [reflexivity|].
  cbn [fold_left existsb]. rewrite IH.
  destruct (existsb (fun q => String.eqb (name q) n) ps).
  - rewrite orb_true_r. reflexivity.
  - rewrite orb_false_r, lookup_insert.
    case_decide as Hn.
    + subst. rewrite String.eqb_refl. reflexivity.
    + apply String.eqb_neq in Hn. rewrite Hn. reflexivity.
Qed.

Lemma make_manager_cover ps : stats_cover (make_manager ps).
Proof.
  intros p Hp. cbn. rewrite fold_insert_new_stats.
  assert (H : existsb (fun q => String.eqb (name q) (name p)) ps = true).
  { apply existsb_exists. exists p. split; [exact Hp | apply String.eqb_refl]. }
  rewrite H. eauto.
Qed.

Lemma make_manager_consistent ps : ledger_consistent (make_manager ps).
Proof.
  intro n. unfold successes_of, failures_of. cbn.
  rewrite fold_insert_new_stats.
  destruct (existsb _ ps); reflexivity.
Qed.

Lemma cover_sorted m :
  stats_cover m ->
  forall q, In q (sorted_by_priority (providers m)) ->
            is_Some (provider_stats m !! name q).
Proof.
  intros Hc q Hq. apply Hc.
  apply (Permutation_in _ (sorted_by_priority_perm (providers m))), Hq.
Qed.

Lemma generate_accounted settings api elapsed messages ai_type user_id
    temperature max_tokens stream m :
  stats_cover m ->
  exists pre post rows,
    sorted_by_priority (providers m) = (pre ++ post)%list /\
    accounted m
      (snd (generate settings api elapsed messages ai_type user_id
                     temperature max_tokens stream m))
      (calls_for ai_type (Py.or_float temperature (AI_TEMPERATURE settings))
                 (Py.or_int max_tokens (AI_MAX_TOKENS settings)) stream pre)
      rows.
Proof.
  intro Hc. unfold generate.
  apply loop_accounted, cover_sorted, Hc.
Qed.

Lemma reachable_well_formed m :
  reachable m -> stats_cover m /\ ledger_consistent m.
Proof.
  induction 1 as [ps|settings api elapsed messages ai_type user_id
                     temperature max_tokens stream m Hm [Hc Hl]].
  - split; [apply make_manager_cover | apply make_manager_consistent].
  - destruct (generate_accounted settings api elapsed messages ai_type user_id
                temperature max_tokens stream m Hc) as (pre & post & rows & _ & Hacc).
    split.
    + intros p Hp. rewrite (acc_providers _ _ _ _ Hacc) in Hp.
      apply (acc_keys _ _ _ _ Hacc), Hc, Hp.
    + apply (accounted_consistent _ _ _ _ Hacc Hl).
Qed.

(** ** Going through providers that fail *)

Section LoopFailover.

Context (settings : Settings)
        (api : ChatRequest -> ResponseData + string)
        (elapsed : ProviderCall -> Z)
        (messages : list Message) (ai_type : string)
        (user_id : option string) (temperature : float)
        (requested : Z) (stream : bool).

Local Abbreviation loop :=
  (generate_loop settings api elapsed messages ai_type user_id
                 temperature requested stream).
Local Abbreviation try_provider :=
  (attempt settings api messages temperature requested stream).
Local Abbreviation the_call := (call_for temperature requested stream).
Local Abbreviation failing :=
  (fails settings api messages ai_type temperature requested stream).
Local Abbreviation collected :=
  (errors_of settings api messages ai_type temperature requested stream).
Local Abbreviation tried := (calls_for ai_type temperature requested stream).

(** The loop goes through a prefix of failing providers, collecting one
    entry per provider called. *)
Lemma loop_through_failures pre : forall rest errors m,
  (forall q, In q pre -> is_Some (provider_stats m !! name q)) ->
  Forall failing pre ->
  exists m1 rows,
    loop (pre ++ rest) errors m = loop rest (errors ++ collected pre) m1 /\
    accounted m m1 (tried pre) rows.
Proof.
  induction pre as [|p pre IH]; intros rest errors m Hcover Hfail.
  - exists m, []. cbn. rewrite app_nil_r. split; [reflexivity | apply accounted_refl].
  - apply Forall_cons_1 in Hfail as [Hp Hfail].
    cbn [app]. unfold errors_of, calls_for. cbn [flat_map].
    destruct (configured_model ai_type p) as [model|] eqn:Hc.
    + destruct (Hp model Hc) as [e He].
      destruct (Hcover p (or_introl eq_refl)) as [s Hs].
      rewrite (loop_failure _ _ _ _ _ _ _ _ _ _ _ _ _ _ _ _ Hc He Hs), He.
      destruct (after_failure_accounted ai_type user_id temperature requested
                  stream p model e s m Hs) as (row & _ & Hacc).
      destruct (IH rest (errors ++ [(name p, e)])%list
                  (after_failure ai_type user_id temperature requested stream
                                 p model e s m))
        as (m1 & rows & Hloop & Hrest).
      { intros q Hq. apply (acc_keys _ _ _ _ Hacc), Hcover. right; exact Hq. }
      { exact Hfail. }
      exists m1, (row :: rows). split.
      * rewrite Hloop, <- app_assoc. reflexivity.
      * apply (accounted_trans _ _ _ _ _ _ _ Hacc Hrest).
    + rewrite (loop_skip _ _ _ _ _ _ _ _ _ _ _ _ _ Hc).
      apply IH; [intros q Hq; apply Hcover; right; exact Hq | exact Hfail].
Qed.



(** The loop returns only what a provider of the list answered. *)
Lemma loop_returns ps : forall errors m r m',
  loop ps errors m = (Return r, m') ->
  exists p model rd,
    In p ps /\ configured_model ai_type p = Some model /\
    try_provider p model = inl rd /\
    r = result_of elapsed temperature requested stream p model rd.
Proof.
  induction ps as [|p ps IH]; intros errors m r m' Hloop.
  - cbn in Hloop. discriminate.
  - destruct (configured_model ai_type p) as [model|] eqn:Hc.
    + destruct (provider_stats m !! name p) as [s|] eqn:Hs.
      * destruct (try_provider p model) as [rd|msg] eqn:Ha.
        -- rewrite (loop_success _ _ _ _ _ _ _ _ _ _ _ _ _ _ _ _ Hc Ha Hs) in Hloop.
           injection Hloop as <- _.
           exists p, model, rd. split; [left; reflexivity | auto].
        -- rewrite (loop_failure _ _ _ _ _ _ _ _ _ _ _ _ _ _ _ _ Hc Ha Hs) in Hloop.
           apply IH in Hloop as (q & model' & rd & Hq & H).
           exists q, model', rd. split; [right; exact Hq | exact H].
      * rewrite (loop_key_error _ _ _ _ _ _ _ _ _ _ _ _ _ _ Hc Hs) in Hloop.
        discriminate.
    + rewrite (loop_skip _ _ _ _ _ _ _ _ _ _ _ _ _ Hc) in Hloop.
      apply IH in Hloop as (q & model' & rd & Hq & H).
      exists q, model', rd. split; [right; exact Hq | exact H].
Qed.

(** Providers without a model leave no trace at all. *)
Lemma loop_unconfigured ps : forall errors m,
  Forall (fun p => configured_model ai_type p = None) ps ->
  loop ps errors m = (Raise (all_failed errors), m).
Proof.
  induction ps as [|p ps IH]; intros errors m Hall; [reflexivity|].
  apply Forall_cons_1 in Hall as [Hp Hall].
  rewrite (loop_skip _ _ _ _ _ _ _ _ _ _ _ _ _ Hp). apply IH, Hall.
Qed.

End LoopFailover.

(** ** Sample worlds *)

Definition sample_usage : Usage :=
  {| prompt_tokens := 10; completion_tokens := 5; total_tokens := 15 |}.

(** Every provider answers. *)
Definition all_up (r : ChatRequest) : ResponseData + string :=
  inl {| rd_content := "hi"; rd_usage := sample_usage |}.

(** Groq is rate limited, the others answer. *)
Definition groq_down (r : ChatRequest) : ResponseData + string :=
  if String.eqb (chat_client r) "groq" then inr "rate limit" else all_up r.

(** No provider answers. *)
Definition all_down (r : ChatRequest) : ResponseData + string :=
  inr ("timeout at " ++ chat_client r).

(** A provider whose reported total is not the sum of the two parts. *)
Definition odd_total (r : ChatRequest) : ResponseData + string :=
  inl {| rd_content := "hi";
         rd_usage := {| prompt_tokens := 10; completion_tokens := 5;
                        total_tokens := 20 |} |}.

Definition latency (c : ProviderCall) : Z := 12.

(** ** The calls respect the providers' ceilings *)

Lemma min_int_le_r a b : Py.min_int a b <= b.
Proof. unfold Py.min_int. destruct (Z.ltb_spec b a); lia. Qed.

Lemma calls_for_capped ai_type temperature requested stream ps :
  Forall (fun c => exists p,
            In p ps /\ call_provider c = name p /\
            call_temperature c = temperature /\
            call_max_tokens c = Py.min_int requested (max_tokens p) /\
            call_max_tokens c <= max_tokens p)
         (calls_for ai_type temperature requested stream ps).
Proof.
  induction ps as [|p ps IH]; [constructor|].
  unfold calls_for. cbn [flat_map].
  assert (IH' : Forall (fun c => exists q,
            In q (p :: ps) /\ call_provider c = name q /\
            call_temperature c = temperature /\
            call_max_tokens c = Py.min_int requested (max_tokens q) /\
            call_max_tokens c <= max_tokens q)
         (calls_for ai_type temperature requested stream ps)).
  { eapply List.Forall_impl; [|exact IH].
    intros c (q & Hq & H). exists q. split; [right; exact Hq | exact H]. }
  destruct (configured_model ai_type p) as [model|]; [|exact IH'].
  constructor; [|exact IH'].
  exists p. cbn. repeat split; try reflexivity.
  - left; reflexivity.
  - apply min_int_le_r.
Qed.

(** ** The failover law *)

(** C1. When the providers, taken by ascending priority with ties in
    registration order, are [pre ++ p :: post], every provider of [pre]
    has no model for the persona or fails, and [p] has a model and
    answers, [generate] returns the result built from [p]'s answer, and
    the calls it made are those to the providers of [pre] that have a
    model followed by the call to [p]: no provider of [post] is called. *)
Theorem generate_first_success
    settings api elapsed messages ai_type user_id temperature max_tokens
    stream m ps pre p post model rd :
  let t := Py.or_float temperature (AI_TEMPERATURE settings) in
  let k := Py.or_int max_tokens (AI_MAX_TOKENS settings) in
  let out := generate settings api elapsed messages ai_type user_id
                      temperature max_tokens stream m in
  stats_cover m ->
  priority_order (providers m) ps ->
  ps = (pre ++ p :: post)%list ->
  Forall (fails settings api messages ai_type t k stream) pre ->
  configured_model ai_type p = Some model ->
  attempt settings api messages t k stream p model = inl rd ->
  fst out = Return (result_of elapsed t k stream p model rd) /\
  calls (snd out) =
    (calls m ++ calls_for ai_type t k stream pre ++ [call_for t k stream p model])%list.
Proof.
  intros t k out Hcover Hord Hps Hpre Hc Ha.
  apply priority_order_unique in Hord. rewrite Hord in Hps.
  unfold out, generate. fold t k. rewrite Hps.
  pose proof (cover_sorted m Hcover) as Hcov. rewrite Hps in Hcov.
  destruct (loop_through_failures settings api elapsed messages ai_type user_id
              t k stream pre (p :: post) [] m) as (m1 & rows & Hloop & Hacc).
  { intros q Hq. apply Hcov, in_or_app. left; exact Hq. }
  { exact Hpre. }
  rewrite Hloop.
  destruct (acc_keys _ _ _ _ Hacc (name p)) as [s Hs].
  { apply Hcov, in_or_app. right; left; reflexivity. }
  rewrite (loop_success _ _ _ _ _ _ _ _ _ _ _ _ _ _ _ _ Hc Ha Hs).
  split; [reflexivity|].
  cbn. rewrite (acc_calls _ _ _ _ Hacc), <- app_assoc. reflexivity.
Qed.

Lemma generate_first_success_witness :
  let out := generate default_settings groq_down latency [] "susan" None
                      None None false (__init__ default_settings) in
  fst out =
    Return {| content := "hi";
              provider := "together";
              model := "Qwen/Qwen2.5-72B-Instruct-Turbo";
              usage := sample_usage;
              cost := _calculate_cost 15 0.0009%float;
              response_time_ms := 12 |} /\
  map call_provider (calls (snd out)) = ["groq"; "together"].
Proof.
  destruct (generate_first_success default_settings groq_down latency []
              "susan" None None None false (__init__ default_settings)
              (sorted_by_priority (registered_providers default_settings))
              [groq_provider default_settings]
              (together_provider default_settings)
              [openrouter_provider default_settings]
              "Qwen/Qwen2.5-72B-Instruct-Turbo"
              {| rd_content := "hi"; rd_usage := sample_usage |})
    as [Hres Hcalls].
  - apply make_manager_cover.
  - apply sorted_by_priority_order.
  - reflexivity.
  - constructor; [|constructor]. intros model _. exists "rate limit". reflexivity.
  - reflexivity.
  - reflexivity.
  - split.
    + rewrite Hres. reflexivity.
    + rewrite Hcalls. reflexivity.
Defined.

(** ** Exhaustion *)



(** C9. When no provider has a model for the persona, [generate] raises
    the aggregate exception with no entry at all, and the manager is left
    as it was: no counter moved, no row written, no call made. *)
Theorem generate_unconfigured
    settings api elapsed messages ai_type user_id temperature max_tokens
    stream m :
  Forall (fun p => configured_model ai_type p = None) (providers m) ->
  generate settings api elapsed messages ai_type user_id temperature
           max_tokens stream m =
  (Raise (all_failed []), m) /\
  all_failed [] = Exception "All AI providers failed: ".
Proof.
  intro Hall. split; [|reflexivity].
  unfold generate. apply loop_unconfigured.
  apply (Permutation_Forall (Permutation_sym (sorted_by_priority_perm _))).
  exact Hall.
Qed.

Lemma generate_unconfigured_witness :
  generate default_settings all_up latency [] "nobody" None None None false
           (__init__ default_settings) =
  (Raise (Exception "All AI providers failed: "), __init__ default_settings).
Proof.
  destruct (generate_unconfigured default_settings all_up latency [] "nobody"
              None None None false (__init__ default_settings)) as [H _].
  - repeat constructor.
  - exact H.
Defined.

(** ** Cost and usage of a result *)

(** C3, as the code has it. The cost of a result is
    [(total_tokens / 1000) * cost_per_1k_tokens] of the provider that
    served it, two binary64 operations and no rounding step besides; the
    usage of the result is the usage that provider reported, unchanged,
    so that its total is the sum of the two parts exactly when the
    provider's report says so. *)
Theorem generate_cost_and_usage
    settings api elapsed messages ai_type user_id temperature max_tokens
    stream m r :
  let t := Py.or_float temperature (AI_TEMPERATURE settings) in
  let k := Py.or_int max_tokens (AI_MAX_TOKENS settings) in
  fst (generate settings api elapsed messages ai_type user_id temperature
                max_tokens stream m) = Return r ->
  exists p model rd,
    In p (providers m) /\ name p = provider r /\
    configured_model ai_type p = Some model /\
    attempt settings api messages t k stream p model = inl rd /\
    usage r = rd_usage rd /\
    cost r = _calculate_cost (total_tokens (usage r)) (cost_per_1k_tokens p) /\
    cost r = PrimFloat.mul
               (PrimFloat.div (Py.float_of_int (total_tokens (usage r))) 1000%float)
               (cost_per_1k_tokens p).
Proof.
  intros t k Hr. unfold generate in Hr. fold t k in Hr.
  destruct (generate_loop settings api elapsed messages ai_type user_id t k
              stream (sorted_by_priority (providers m)) [] m) as [o m'] eqn:Hloop.
  cbn in Hr. subst o.
  apply loop_returns in Hloop as (p & model & rd & Hin & Hc & Ha & ->).
  exists p, model, rd. repeat split; try assumption; try reflexivity.
  apply (Permutation_in _ (sorted_by_priority_perm _)), Hin.
Qed.

Lemma generate_cost_and_usage_witness :
  exists p,
    In p (registered_providers default_settings) /\ name p = "together" /\
    _calculate_cost 15 0.0009%float =
    PrimFloat.mul (PrimFloat.div (Py.float_of_int 15) 1000%float)
                  (cost_per_1k_tokens p).
Proof.
  destruct (generate_cost_and_usage default_settings groq_down latency []
              "susan" None None None false (__init__ default_settings)
              {| content := "hi";
                 provider := "together";
                 model := "Qwen/Qwen2.5-72B-Instruct-Turbo";
                 usage := sample_usage;
                 cost := _calculate_cost 15 0.0009%float;
                 response_time_ms := 12 |} eq_refl)
    as (p & model & rd & Hin & Hname & _ & _ & _ & _ & Hcost).
  exists p. repeat split; assumption.
Defined.

(** The total is not recomputed: a provider that reports a total of 20
    for 10 prompt and 5 completion tokens has its usage returned as is,
    with a total that is not the sum of the two parts. *)
Lemma usage_total_is_not_recomputed :
  exists r,
    fst (generate default_settings odd_total latency [] "susan" None None
                  None false (__init__ default_settings)) = Return r /\
    total_tokens (usage r) = 20 /\
    prompt_tokens (usage r) + completion_tokens (usage r) = 15 /\
    total_tokens (usage r) <>
      prompt_tokens (usage r) + completion_tokens (usage r).
Proof.
  eexists. split; [reflexivity|]. cbn. repeat split. discriminate.
Qed.

(** ** Effective temperature and max-tokens *)

(** A non-zero override is kept. *)
Lemma or_float_kept v d :
  PrimFloat.eqb v 0%float = false -> Py.or_float (Some v) d = v.
Proof. intro H. unfold Py.or_float, Py.float_truthy. rewrite H. reflexivity. Qed.

Lemma or_int_kept v d : v <> 0 -> Py.or_int (Some v) d = v.
Proof.
  intro H. unfold Py.or_int. destruct (Z.eqb_spec v 0); [contradiction | reflexivity].
Qed.

(** X2. Every call [generate] makes to a provider carries the effective
    temperature and, as max-tokens, the smaller of the effective
    max-tokens and that provider's ceiling: no provider is asked for more
    than its [max_tokens]. *)
Lemma generate_calls_capped
    settings api elapsed messages ai_type user_id temperature max_tokens_override
    stream m :
  let t := Py.or_float temperature (AI_TEMPERATURE settings) in
  let k := Py.or_int max_tokens_override (AI_MAX_TOKENS settings) in
  stats_cover m ->
  exists sent,
    calls (snd (generate settings api elapsed messages ai_type user_id
                         temperature max_tokens_override stream m)) =
      (calls m ++ sent)%list /\
    Forall (fun c => exists p,
              In p (providers m) /\ call_provider c = name p /\
              call_temperature c = t /\
              call_max_tokens c = Py.min_int k (max_tokens p) /\
              call_max_tokens c <= max_tokens p) sent.
Proof.
  intros t k Hcover.
  destruct (generate_accounted settings api elapsed messages ai_type user_id
              temperature max_tokens_override stream m Hcover)
    as (pre & post & rows & Hsplit & Hacc).
  exists (calls_for ai_type t k stream pre).
  split; [apply (acc_calls _ _ _ _ Hacc)|].
  eapply List.Forall_impl; [|apply calls_for_capped].
  intros c (p & Hp & H). exists p. split; [|exact H].
  apply (Permutation_in _ (sorted_by_priority_perm (providers m))).
  rewrite Hsplit. apply in_or_app. left; exact Hp.
Qed.

(** C5, where the code departs from it. An override of zero is not kept:
    [temperature or settings.AI_TEMPERATURE] and
    [max_tokens or settings.AI_MAX_TOKENS] take the default for [0.0] and
    for [0], so that a caller asking for temperature [0.0] has [0.7] sent
    to the provider. *)
Theorem zero_override_is_dropped :
  (forall d, Py.or_float (Some 0%float) d = d) /\
  (forall d, Py.or_int (Some 0) d = d) /\
  calls (snd (generate default_settings all_up latency [] "susan" None
                       (Some 0%float) (Some 0) false
                       (__init__ default_settings))) =
  [ {| call_provider := "groq";
       call_model := "llama-3.3-70b-versatile";
       call_temperature := 0.7%float;
       call_max_tokens := 2048;
       call_stream := false |} ].
Proof. repeat split. Qed.

(** ** The ledger *)

(** C6. On a manager built by [__init__] and used through [generate], a
    call of [generate] goes through the providers in priority order up to
    and including the first that answers (through all of them when none
    does, and then it raises). The providers tried are those gone through
    that have a model for the persona. Each of them was called once and
    left exactly one row, its own, flagged with what it answered, and
    moved exactly one of its two counters by one; the providers without a
    model left no row and moved no counter. So the rows recorded grow by
    the number of providers tried, and after the call successes plus
    failures of every provider is the number of rows recorded for it. *)
Theorem generate_ledger
    settings api elapsed messages ai_type user_id temperature max_tokens
    stream m :
  let t := Py.or_float temperature (AI_TEMPERATURE settings) in
  let k := Py.or_int max_tokens (AI_MAX_TOKENS settings) in
  let out := generate settings api elapsed messages ai_type user_id
                      temperature max_tokens stream m in
  let m' := snd out in
  let ps := sorted_by_priority (providers m) in
  let answered := answers settings api messages ai_type t k stream in
  let gone := reached settings api messages ai_type t k stream ps in
  let tried := List.filter (configured ai_type) gone in
  let rows := rows_for settings api elapsed messages ai_type user_id t k
                       stream gone in
  reachable m ->
  (exists post, ps = (gone ++ post)%list) /\
  match fst out with
  | Return r =>
      exists before p,
        tried = (before ++ [p])%list /\
        Forall (fun q => answered q = false) before /\
        answered p = true /\ provider r = name p
  | Raise _ =>
      tried = List.filter (configured ai_type) ps /\
      Forall (fun q => answered q = false) tried
  end /\
  accounted m m' (calls_for ai_type t k stream gone) rows /\
  map call_provider (calls_for ai_type t k stream gone) = map name tried /\
  Forall2 (fun q row => req_provider row = name q /\
                        req_user_id row = user_id /\
                        req_ai_type row = ai_type /\
                        req_success row = answered q) tried rows /\
  length (ai_requests m') = (length (ai_requests m) + length tried)%nat /\
  (forall n,
     successes_of m' n + failures_of m' n =
     successes_of m n + failures_of m n +
     Z.of_nat (length (List.filter (fun q => String.eqb (name q) n) tried))) /\
  ledger_consistent m'.
Proof.
  intros t k out m' ps answered gone tried rows Hm.
  destruct (reachable_well_formed m Hm) as [Hcover Hcons].
  pose proof (cover_sorted m Hcover) as Hps. fold ps in Hps.
  pose proof (loop_ledger settings api elapsed messages ai_type user_id t k
                stream ps [] m Hps) as Hacc.
  pose proof (loop_stops settings api elapsed messages ai_type user_id t k
                stream ps [] m Hps) as Hstop.
  pose proof (rows_for_tried settings api elapsed messages ai_type user_id t k
                stream gone) as Hrows.
  fold gone rows in Hacc. fold tried rows answered in Hrows.
  change (generate_loop settings api elapsed messages ai_type user_id t k
            stream ps [] m) with out in Hacc, Hstop.
  fold m' in Hacc. fold gone answered in Hstop.
  split; [apply reached_is_prefix|]. split.
  { destruct (fst out) as [r|e].
    - destruct Hstop as (before & p & model & rd & Hr & Hb & Hc & Ha & ->).
      exists (List.filter (configured ai_type) before), p.
      unfold tried. rewrite Hr, List.filter_app. cbn [List.filter].
      unfold configured at 2. rewrite Hc. split; [reflexivity|]. split.
      + clear -Hb. induction Hb as [|q l Hq _ IH]; [constructor|].
        cbn [List.filter]. destruct (configured ai_type q);
          [constructor; assumption | exact IH].
      + split; [|reflexivity].
        apply (answers_success settings api messages ai_type t k stream
                 p model rd Hc Ha).
    - destruct Hstop as [Hr Hall]. unfold tried. rewrite Hr.
      split; [reflexivity|].
      clear -Hall. induction Hall as [|q l Hq _ IH]; [constructor|].
      cbn [List.filter]. destruct (configured ai_type q);
        [constructor; assumption | exact IH]. }
  split; [exact Hacc|]. split.
  { unfold tried. clear. induction gone as [|q l IH]; [reflexivity|].
    unfold calls_for, configured in *. cbn [flat_map List.filter].
    destruct (configured_model ai_type q); [|exact IH].
    cbn [app map]. f_equal. exact IH. }
  split; [exact Hrows|]. split.
  { rewrite (acc_rows _ _ _ _ Hacc), List.length_app.
    rewrite (Forall2_length _ _ _ Hrows). reflexivity. }
  split.
  { intro n. rewrite (acc_successes _ _ _ _ Hacc), (acc_failures _ _ _ _ Hacc).
    unfold tried.
    rewrite <- (rows_for_recorded settings api elapsed messages ai_type
                  user_id t k stream n gone).
    fold rows. rewrite (recorded_split n rows). lia. }
  apply (accounted_consistent _ _ _ _ Hacc Hcons).
Qed.

Lemma generate_ledger_witness :
  let m' := snd (generate default_settings groq_down latency [] "susan" None
                          None None false (__init__ default_settings)) in
  map (fun row => (req_provider row, req_success row)) (ai_requests m') =
    [("groq", false); ("together", true)] /\
  map call_provider (calls m') = ["groq"; "together"] /\
  (failures_of m' "groq" = 1 /\ successes_of m' "groq" = 0) /\
  (successes_of m' "together" = 1 /\ failures_of m' "together" = 0) /\
  successes_of m' "openrouter" + failures_of m' "openrouter" = 0.
Proof.
  destruct (generate_ledger default_settings groq_down latency [] "susan" None
              None None false (__init__ default_settings)
              (reachable_init _))
    as (_ & _ & Hacc & _ & _ & _ & Hsum & _).
  split; [rewrite (acc_rows _ _ _ _ Hacc); reflexivity|].
  split; [rewrite (acc_calls _ _ _ _ Hacc); reflexivity|].
  split; [|split].
  - rewrite (acc_failures _ _ _ _ Hacc), (acc_successes _ _ _ _ Hacc).
    split; reflexivity.
  - rewrite (acc_failures _ _ _ _ Hacc), (acc_successes _ _ _ _ Hacc).
    split; reflexivity.
  - rewrite Hsum. reflexivity.
Defined.

(** * Properties of the intelligent router *)

(** ** Keyword scoring and letter case *)

(** The scoring the specification words: a phrase of the table counts when
    it occurs in the message, letter case ignored on both sides. *)
Definition keyword_score_case_insensitive (message : string)
    (keywords : list (string * float)) : float :=
  fold_left
    (fun score kw =>
       if Py.contains (Py.lower (fst kw)) (Py.lower message)
       then PrimFloat.add score (snd kw) else score)
    keywords 0%float.

Fixpoint has_upper (s : string) : bool :=
  match s with
  | EmptyString => false
  | String c s' => Py.is_upper c || has_upper s'
  end.

Fixpoint occurs (c : ascii) (s : string) : bool :=
  match s with
  | EmptyString => false
  | String d s' => Ascii.eqb c d || occurs c s'
  end.

Lemma lower_char_not_upper c : Py.is_upper (Py.lower_char c) = false.
Proof.
  destruct c as [[] [] [] [] [] [] [] []]; reflexivity.
Qed.

Lemma lower_no_upper s c :
  occurs c (Py.lower s) = true -> Py.is_upper c = false.
Proof.
  induction s as [|d s IH]; cbn; [discriminate|].
  destruct (Ascii.eqb_spec c (Py.lower_char d)) as [->|_]; cbn.
  - intros _. apply lower_char_not_upper.
  - exact IH.
Qed.

Lemma prefix_occurs sub : forall s c,
  String.prefix sub s = true -> occurs c sub = true -> occurs c s = true.
Proof.
  induction sub as [|a sub IH]; intros s c Hp Hc; [discriminate|].
  destruct s as [|b s]; [discriminate|].
  cbn in Hp. destruct (ascii_dec a b) as [->|]; [|discriminate].
  cbn in Hc |- *.
  destruct (Ascii.eqb c b); [reflexivity|]. cbn in Hc |- *.
  eapply IH; eassumption.
Qed.

Lemma contains_occurs sub s c :
  Py.contains sub s = true -> occurs c sub = true -> occurs c s = true.
Proof.
  induction s as [|b s IH]; cbn; intros Hc Ho.
  - rewrite orb_false_r in Hc. eapply (prefix_occurs sub ""); eassumption.
  - apply orb_true_iff in Hc as [Hp|Hc].
    + apply (prefix_occurs sub (String b s) c Hp Ho).
    + rewrite (IH Hc Ho). apply orb_true_r.
Qed.

Lemma has_upper_occurs s :
  has_upper s = true -> exists c, occurs c s = true /\ Py.is_upper c = true.
Proof.
  induction s as [|d s IH]; cbn; [discriminate|].
  intros [Hd|Hs]%orb_true_iff.
  - exists d. rewrite Ascii.eqb_refl. auto.
  - destruct (IH Hs) as (c & Hc & Hu). exists c. rewrite Hc, orb_true_r. auto.
Qed.

(** A phrase written with a capital never occurs in a lowered message. *)
Lemma capital_never_matches keyword message :
  has_upper keyword = true ->
  Py.contains keyword (Py.lower message) = false.
Proof.
  intro Hu. destruct (has_upper_occurs keyword Hu) as (c & Hc & Hup).
  destruct (Py.contains keyword (Py.lower message)) eqn:E; [|reflexivity].
  pose proof (contains_occurs _ _ c E Hc) as Ho.
  apply lower_no_upper in Ho. congruence.
Qed.

Lemma keyword_score_drops_capitals message keywords :
  _calculate_keyword_score (Py.lower message) keywords =
  _calculate_keyword_score (Py.lower message)
    (List.filter (fun kw => negb (has_upper (fst kw))) keywords).
Proof.
  unfold _calculate_keyword_score. generalize 0%float.
  induction keywords as [|kw keywords IH]; intro score; [reflexivity|].
  cbn [fold_left List.filter].
  destruct (has_upper (fst kw)) eqn:Hu; cbn [negb].
  - rewrite (capital_never_matches _ _ Hu). apply IH.
  - cbn [fold_left]. apply IH.
Qed.

(** C4, where the code departs from it. [route] lowers the message and
    then looks for the table's phrases as they are written, so that the
    seven phrases of [SUSAN_KEYWORDS] written with capitals (GAF, Owens
    Corning, CertainTeed, IBC, IRC, NFPA, iTel) never add their weight,
    whatever the letter case of the message: the message "practice with
    GAF and IBC" scores 0 for Susan instead of 2 and is routed to Agnes. *)
Theorem capitalised_keywords_never_score :
  (forall message,
     _calculate_keyword_score (Py.lower message) SUSAN_KEYWORDS =
     _calculate_keyword_score (Py.lower message)
       (List.filter (fun kw => negb (has_upper (fst kw))) SUSAN_KEYWORDS)) /\
  map fst (List.filter (fun kw => has_upper (fst kw)) SUSAN_KEYWORDS) =
    ["GAF"; "Owens Corning"; "CertainTeed"; "IBC"; "IRC"; "NFPA"; "iTel"] /\
  _calculate_keyword_score (Py.lower "practice with GAF and IBC") SUSAN_KEYWORDS
    = 0%float /\
  keyword_score_case_insensitive "practice with GAF and IBC" SUSAN_KEYWORDS
    = 2%float /\
  route "practice with GAF and IBC" None =
    Return ("agnes", TrainingIntentDetected 1.5, 0.9375%float).
Proof.
  split; [intro message; apply keyword_score_drops_capitals|].
  repeat split.
Qed.

(** ** The scores a message can reach

    A score is a sum of weights of the table, taken in the table's order,
    with the two bonuses added last. The finitely many binary64 values
    such a sum can take are enumerated, so that facts about every score
    are settled by evaluation. *)

Definition add_new (x : float) (l : list float) : list float :=
  if existsb (PrimFloat.Leibniz.eqb x) l then l else x :: l.

Definition dedup (l : list float) : list float := fold_right add_new [] l.

(** The values reached from [S] when [w] is added or not. *)
Definition widen (S : list float) (w : float) : list float :=
  dedup (S ++ map (fun s => PrimFloat.add s w) S).

Definition sums_of (ws : list float) : list float := fold_left widen ws [0%float].

Definition training_scores : list float :=
  sums_of (map snd TRAINING_KEYWORDS ++ [0.5; 0.3]%float).

Definition technical_scores : list float :=
  sums_of (map snd SUSAN_KEYWORDS ++ [0.5; 0.3]%float).

(** The divisor of the confidence is not zero. *)
Definition divisor_ok (a b : float) : bool :=
  negb (PrimFloat.eqb (PrimFloat.add (PrimFloat.add a b) 0.1) 0%float).

Definition all_pairs (f : float -> float -> bool) (A B : list float) : bool :=
  forallb (fun a => forallb (f a) B) A.

Lemma in_add_new x y l : In y (x :: l) -> In y (add_new x l).
Proof.
  unfold add_new. destruct (existsb (PrimFloat.Leibniz.eqb x) l) eqn:E.
  - intros [<-|H]; [|exact H].
    apply existsb_exists in E as (z & Hz & Hxz).
    apply FloatAxioms.Leibniz.eqb_spec in Hxz. subst z. exact Hz.
  - auto.
Qed.

Lemma in_dedup y l : In y l -> In y (dedup l).
Proof.
  induction l as [|x l IH]; [auto|].
  intro H. cbn [dedup fold_right]. apply in_add_new.
  destruct H as [->|H]; [left; reflexivity | right; apply IH, H].
Qed.

Lemma widen_keep s S w : In s S -> In s (widen S w).
Proof. intro H. apply in_dedup, in_or_app. left; exact H. Qed.

Lemma widen_add s S w : In s S -> In (PrimFloat.add s w) (widen S w).
Proof.
  intro H. apply in_dedup, in_or_app. right.
  apply (in_map (fun s => PrimFloat.add s w)), H.
Qed.

Lemma keyword_fold_reach message keywords : forall score S,
  In score S ->
  In (fold_left
        (fun score kw =>
           if Py.contains (fst kw) message then PrimFloat.add score (snd kw)
           else score) keywords score)
     (fold_left widen (map snd keywords) S).
Proof.
  induction keywords as [|kw keywords IH]; intros score S H; [exact H|].
  cbn [fold_left map]. apply IH.
  destruct (Py.contains (fst kw) message);
    [apply widen_add | apply widen_keep]; exact H.
Qed.

Lemma bonus_reach (b : bool) s S w :
  In s S -> In (if b then PrimFloat.add s w else s) (widen S w).
Proof. destruct b; [apply widen_add | apply widen_keep]. Qed.

Lemma final_scores_reach message context :
  In (fst (context_adjustments context (message_scores message)))
     training_scores /\
  In (snd (context_adjustments context (message_scores message)))
     technical_scores.
Proof.
  unfold context_adjustments, message_scores, training_scores,
         technical_scores, sums_of, _calculate_keyword_score.
  rewrite !fold_left_app. cbn [fst snd].
  change (fold_left widen [0.5; 0.3]%float ?S)
    with (widen (widen S 0.5%float) 0.3%float).
  split; apply bonus_reach, bonus_reach, keyword_fold_reach; left; reflexivity.
Qed.

(** Checked on the 312 training scores and the 993 technical scores. *)
Lemma divisors_checked :
  all_pairs divisor_ok training_scores technical_scores = true.
Proof. vm_compute. reflexivity. Qed.

Lemma all_pairs_in f A B a b :
  all_pairs f A B = true -> In a A -> In b B -> f a b = true.
Proof.
  unfold all_pairs. intros H Ha Hb.
  rewrite forallb_forall in H. specialize (H a Ha).
  rewrite forallb_forall in H. exact (H b Hb).
Qed.

Lemma divisor_nonzero a b :
  In a training_scores -> In b technical_scores ->
  PrimFloat.eqb (PrimFloat.add (PrimFloat.add a b) 0.1) 0%float = false.
Proof.
  intros Ha Hb.
  pose proof (all_pairs_in divisor_ok training_scores technical_scores a b
                divisors_checked Ha Hb) as H.
  unfold divisor_ok in H. apply negb_true_iff in H. exact H.
Qed.

Lemma decide_by_scores_returns a b :
  In a training_scores -> In b technical_scores ->
  exists decision, decide_by_scores a b = Return decision.
Proof.
  intros Ha Hb. unfold decide_by_scores, Py.truediv.
  rewrite (divisor_nonzero a b Ha Hb).
  destruct (PrimFloat.ltb b a); [eexists; reflexivity|].
  destruct (PrimFloat.ltb a b); eexists; reflexivity.
Qed.

(** ** The message count that step 3 compares *)

(** The message count [route] compares with 3 at step 3, when it gets
    there: that of the persona [last_ai] names. *)
Definition streak_read (context : Context) : option value :=
  if truthy (get context "active_training_scenario") then None
  else if equals_str (get context "last_ai") "agnes"
  then Some (get_or context "agnes_message_count" (VInt 0))
  else if equals_str (get context "last_ai") "susan"
  then Some (get_or context "susan_message_count" (VInt 0))
  else None.

(** The values ordered against an int: ints, bools and floats. *)
Definition is_number (v : value) : bool :=
  match v with
  | VBool _ | VInt _ | VFloat _ => true
  | VNone | VStr _ | VOther _ => false
  end.

(** The count step 3 would compare, if any, is a number. *)
Definition counts_readable (context : Context) : bool :=
  match streak_read context with
  | Some v => is_number v
  | None => true
  end.

Lemma at_least_3_number v :
  is_number v = true -> exists long, at_least_3 v = Return long.
Proof. destruct v; try discriminate; intros _; eexists; reflexivity. Qed.


Lemma equals_agnes_not_susan v :
  equals_str v "agnes" = true -> equals_str v "susan" = false.
Proof.
  destruct v; try discriminate. cbn.
  intros ->%String.eqb_eq. reflexivity.
Qed.

Lemma context_rules_readable context :
  counts_readable context = true ->
  exists by_context, context_rules context = Return by_context.
Proof.
  unfold counts_readable, streak_read, context_rules.
  destruct (truthy _); [intros _; eexists; reflexivity|].
  destruct (equals_str _ "agnes") eqn:Ea.
  - intro H. destruct (at_least_3_number _ H) as [long ->].
    cbn [mbind outcome_bind]. destruct long; [eexists; reflexivity|].
    rewrite (equals_agnes_not_susan _ Ea). eexists; reflexivity.
  - cbn [mbind outcome_bind]. destruct (equals_str _ "susan").
    + intro H. destruct (at_least_3_number _ H) as [long ->].
      eexists; reflexivity.
    + intros _. eexists; reflexivity.
Qed.


(** What steps 2 and 3 can decide. *)
Lemma context_rules_decision context decision :
  context_rules context = Return (Some decision) ->
  decision = ("agnes", ActiveTrainingScenario, 1.0%float) \/
  (exists streak,
     decision = ("agnes", TrainingSessionContinuity streak, 0.9%float)) \/
  (exists streak,
     decision = ("susan", TechnicalConsultationContinuity streak, 0.9%float)).
Proof.
  unfold context_rules.
  destruct (truthy _); [intros [= <-]; auto|].
  destruct (equals_str _ "agnes").
  - destruct (at_least_3 (get_or context "agnes_message_count" _))
      as [[|]|e]; cbn [mbind outcome_bind].
    + intros [= <-]. eauto.
    + destruct (equals_str _ "susan"); [|discriminate].
      destruct (at_least_3 _) as [[|]|e']; cbn [mbind outcome_bind];
        [intros [= <-]; eauto | discriminate | discriminate].
    + discriminate.
  - cbn [mbind outcome_bind]. destruct (equals_str _ "susan"); [|discriminate].
    destruct (at_least_3 _) as [[|]|e']; cbn [mbind outcome_bind];
      [intros [= <-]; eauto | discriminate | discriminate].
Qed.

Lemma context_rules_empty : context_rules empty_context = Return None.
Proof. reflexivity. Qed.

(** Past steps 1 to 3, [route] returns. *)
Lemma route_by_scores_returns message context :
  exists decision,
    (let '(training_score, technical_score) :=
       context_adjustments context (message_scores message) in
     decide_by_scores training_score technical_score) = Return decision.
Proof.
  destruct (final_scores_reach message context) as [Ha Hb].
  destruct (context_adjustments _ _) as [a b].
  apply decide_by_scores_returns; assumption.
Qed.

Lemma route_returns message context :
  counts_readable (default empty_context context) = true ->
  exists decision, route message context = Return decision.
Proof.
  intro Hok. unfold route.
  destruct (explicit_mention _) as [decision|]; [eexists; reflexivity|].
  destruct (context_rules_readable _ Hok) as [[decision|] ->];
    cbn [mbind outcome_bind]; [eexists; reflexivity|].
  apply route_by_scores_returns.
Qed.



(** Without a context there is no count to read. *)
Lemma route_bare_returns message :
  exists decision, route message None = Return decision.
Proof. apply route_returns. reflexivity. Qed.

(** ** Equal scores *)




(** ** Where [route] returns, and the default *)

(** The context of a conversation in which nothing is set but a tie of
    the two bonuses. *)
Definition both_recent : Context :=
  list_to_map
    [ ("last_ai", VStr "susan");
      ("susan_message_count", VInt 1);
      ("recent_scenario_completion", VBool true);
      ("recent_claim_discussion", VBool true) ].





(** ** Handoff suggestions *)

(** What [suggest_handoff] answers once [route] has decided. *)
Definition handoff_for (current_ai : string) (decision : Decision)
    : option Handoff :=
  let '(optimal_ai, why, conf) := decision in
  if negb (String.eqb optimal_ai current_ai) && PrimFloat.leb 0.8 conf
  then Some {| suggested_ai := optimal_ai;
               reason := why;
               confidence := conf;
               message := _generate_handoff_message current_ai optimal_ai |}
  else None.

Lemma suggest_handoff_late current msg n decision :
  3 <= n -> route msg None = Return decision ->
  suggest_handoff current msg n = Return (handoff_for current decision).
Proof.
  intros Hn Hr. unfold suggest_handoff.
  destruct (Z.ltb_spec n 3) as [?|_]; [lia|].
  rewrite Hr. destruct decision as [[optimal_ai why] conf].
  cbn [mbind outcome_bind handoff_for].
  destruct (negb (String.eqb optimal_ai current) && PrimFloat.leb 0.8 conf);
    reflexivity.
Qed.

(** C8. Below three turns [suggest_handoff] suggests nothing. From three
    turns on it routes the message again and suggests a handoff exactly
    when the routed persona is not the current one and the confidence is
    at least 0.8; the suggestion names the routed persona and carries the
    transition message. With the message "let's roleplay this" and Susan
    as the current persona, nothing is suggested at turn 1 and a handoff
    to Agnes, at confidence 0.9375, is suggested at turn 5. *)
Theorem suggest_handoff_rule :
  (forall current msg n,
     n < 3 -> suggest_handoff current msg n = Return None) /\
  (forall current msg n,
     3 <= n ->
     exists optimal_ai why conf,
       route msg None = Return (optimal_ai, why, conf) /\
       (optimal_ai <> current /\ PrimFloat.leb 0.8 conf = true ->
        suggest_handoff current msg n =
          Return (Some {| suggested_ai := optimal_ai;
                          reason := why;
                          confidence := conf;
                          message := _generate_handoff_message current optimal_ai |})) /\
       (~ (optimal_ai <> current /\ PrimFloat.leb 0.8 conf = true) ->
        suggest_handoff current msg n = Return None)) /\
  suggest_handoff "susan" "let's roleplay this" 1 = Return None /\
  (exists h,
     suggest_handoff "susan" "let's roleplay this" 5 = Return (Some h) /\
     suggested_ai h = "agnes" /\
     confidence h = 0.9375%float /\
     PrimFloat.leb 0.8 (confidence h) = true /\
     message h = "It sounds like you'd like to practice this! Let me connect you with Agnes for some roleplay training. She's great at this!").
Proof.
  split.
  { intros current msg n Hn. unfold suggest_handoff.
    destruct (Z.ltb_spec n 3); [reflexivity | lia]. }
  split.
  { intros current msg n Hn.
    destruct (route_bare_returns msg) as [[[optimal_ai why] conf] Hr].
    exists optimal_ai, why, conf. split; [exact Hr|].
    rewrite (suggest_handoff_late current msg n _ Hn Hr). cbn [handoff_for].
    split.
    - intros [Hne Hconf]. apply String.eqb_neq in Hne.
      rewrite Hne, Hconf. reflexivity.
    - intro Hnot.
      destruct (String.eqb_spec optimal_ai current) as [_|Hne]; [reflexivity|].
      destruct (PrimFloat.leb 0.8 conf); [|reflexivity].
      exfalso. apply Hnot. split; [exact Hne | reflexivity]. }
  split; [reflexivity|].
  eexists. split; [reflexivity|]. repeat split.
Qed.

(** ** The router that a handoff suggestion consults *)

(** [route] with steps 2, 3 and 6 taken out: explicit mentions, then the
    scores of the message alone. *)
Definition route_without_context (msg : string) : outcome Decision :=
  let message_lower := Py.lower msg in
  match explicit_mention message_lower with
  | Some decision => Return decision
  | None =>
      let '(training_score, technical_score) := message_scores message_lower in
      decide_by_scores training_score technical_score
  end.

(** A conversation in an active training scenario. *)
Definition in_training : Context :=
  list_to_map
    [ ("active_training_scenario", VBool true);
      ("last_ai", VStr "agnes");
      ("agnes_message_count", VInt 7);
      ("recent_scenario_completion", VBool true);
      ("recent_claim_discussion", VBool false) ].

Lemma context_adjustments_empty scores :
  context_adjustments empty_context scores = scores.
Proof. destruct scores; reflexivity. Qed.

Lemma route_no_context msg : route msg None = route_without_context msg.
Proof.
  unfold route, route_without_context. cbn [default].
  destruct (explicit_mention (Py.lower msg)); [reflexivity|].
  rewrite context_rules_empty. cbn [mbind outcome_bind].
  rewrite context_adjustments_empty. reflexivity.
Qed.

(** C10. [suggest_handoff] calls [route] with no context at all: what it
    consults is [route] without the active-scenario rule, the continuity
    rule and the contextual bonuses, so its answer is fixed by the current
    persona, the message and the turn count. A conversation in an active
    training scenario, which [route] would keep with Agnes, gets the
    suggestion the bare message gets. *)
Theorem handoff_ignores_context :
  (forall msg, route msg None = route_without_context msg) /\
  (forall current msg n,
     suggest_handoff current msg n =
     if n <? 3 then Return None
     else decision ← route_without_context msg;
          Return (handoff_for current decision)) /\
  route "I have a question" (Some in_training) =
    Return ("agnes", ActiveTrainingScenario, 1%float) /\
  route "I have a question" None =
    Return ("susan", DefaultRouting, 0.5%float) /\
  suggest_handoff "susan" "I have a question" 9 = Return None.
Proof.
  split; [exact route_no_context|].
  split; [|repeat split].
  intros current msg n. destruct (Z.ltb_spec n 3) as [Hn|Hn].
  - unfold suggest_handoff. destruct (Z.ltb_spec n 3); [reflexivity | lia].
  - rewrite <- route_no_context.
    destruct (route_bare_returns msg) as [decision Hr].
    rewrite (suggest_handoff_late current msg n decision Hn Hr), Hr.
    reflexivity.
Qed.

(** * Further properties *)

(** ** The order of the registry *)

(** X1. [sorted(self.providers, key=priority)] is a rearrangement of the
    registry in ascending priority that keeps providers of equal priority
    in their registration order, and it is the only such list; the three
    registered providers are tried as Groq, Together, OpenRouter. *)
Theorem tried_in_priority_order :
  (forall l,
     Permutation (sorted_by_priority l) l /\
     priority_order l (sorted_by_priority l)) /\
  (forall l ps, priority_order l ps <-> ps = sorted_by_priority l) /\
  (forall settings,
     map name (sorted_by_priority (registered_providers settings)) =
     ["groq"; "together"; "openrouter"]).
Proof.
  split; [|split].
  - intro l. split; [apply sorted_by_priority_perm | apply sorted_by_priority_order].
  - intros l ps. split; [apply priority_order_unique|].
    intros ->. apply sorted_by_priority_order.
  - reflexivity.
Qed.

(** ** The examples of the router *)

(** Two runs of the router. A message that names Agnes goes to Agnes at
    confidence 1.0 before any scoring; a question about what IBC requires
    for flashing goes to Susan on the keyword and the pattern, at a
    confidence above 0.5. *)
Theorem route_examples :
  route "I want to practice a scenario with Agnes" None =
    Return ("agnes", ExplicitMentionOfAgnes, 1%float) /\
  (exists conf,
     route "What does IBC require for flashing?" None =
       Return ("susan", TechnicalIntentDetected 1.3, conf) /\
     PrimFloat.ltb 0.5 conf = true) /\
  message_scores (Py.lower "What does IBC require for flashing?") =
    (0%float, 1.3%float).
Proof.
  split; [reflexivity|]. split; [|reflexivity].
  eexists. split; reflexivity.
Qed.

(** ** The range of a decision *)

(** The confidence computed from two scores lies between 0 and 1. *)
Definition confidence_ok (a b : float) : bool :=
  match decide_by_scores a b with
  | Return (_, _, conf) => PrimFloat.leb 0 conf && PrimFloat.leb conf 1
  | Raise _ => false
  end.

Lemma confidences_checked :
  all_pairs confidence_ok training_scores technical_scores = true.
Proof. vm_compute. reflexivity. Qed.

Lemma decide_by_scores_persona a b decision :
  decide_by_scores a b = Return decision ->
  fst (fst decision) = "susan" \/ fst (fst decision) = "agnes".
Proof.
  unfold decide_by_scores, Py.truediv.
  destruct (PrimFloat.ltb b a).
  - destruct (PrimFloat.eqb _ 0%float); [discriminate|].
    intros [= <-]. right; reflexivity.
  - destruct (PrimFloat.ltb a b).
    + destruct (PrimFloat.eqb _ 0%float); [discriminate|].
      intros [= <-]. left; reflexivity.
    + intros [= <-]. left; reflexivity.
Qed.

(** The decision of [route], its persona and the range of its
    confidence. *)
Lemma route_range msg context ai why conf :
  route msg context = Return (ai, why, conf) ->
  (ai = "susan" \/ ai = "agnes") /\
  PrimFloat.leb 0 conf = true /\ PrimFloat.leb conf 1 = true.
Proof.
  unfold route.
  destruct (explicit_mention _) as [decision|] eqn:Hm.
  { unfold explicit_mention in Hm.
    destruct (_ && _) in Hm; [injection Hm as <-; intros [= <- _ <-]; auto|].
    destruct (_ && _) in Hm; [|discriminate].
    injection Hm as <-. intros [= <- _ <-]. auto. }
  destruct (context_rules _) as [[decision|]|e] eqn:Hc;
    cbn [mbind outcome_bind]; [| |discriminate].
  { destruct (context_rules_decision _ _ Hc) as [->|[[streak ->]|[streak ->]]];
      intros [= <- _ <-]; auto. }
  destruct (final_scores_reach (Py.lower msg) (default empty_context context))
    as [Ha Hb].
  destruct (context_adjustments _ _) as [a b]. cbn [fst snd] in Ha, Hb.
  pose proof (all_pairs_in confidence_ok training_scores technical_scores a b
                confidences_checked Ha Hb) as Hok.
  unfold confidence_ok in Hok. intro Hd. rewrite Hd in Hok.
  apply andb_true_iff in Hok as [H0 H1].
  split; [|split; assumption].
  apply (decide_by_scores_persona a b _ Hd).
Qed.

(** X4. Every decision [route] returns names Susan or Agnes and carries a
    confidence between 0.0 and 1.0. *)
Theorem route_decision_range msg context ai why conf :
  route msg context = Return (ai, why, conf) ->
  (ai = "susan" \/ ai = "agnes") /\
  PrimFloat.leb 0 conf = true /\ PrimFloat.leb conf 1 = true.
Proof. exact (route_range msg context ai why conf). Qed.

Lemma route_decision_range_witness :
  exists conf,
    route "How do I handle an objection?" (Some both_recent) =
      Return ("agnes", TrainingIntentDetected 1.5, conf) /\
    PrimFloat.leb 0 conf = true /\ PrimFloat.leb conf 1 = true.
Proof.
  eexists. split; [reflexivity|].
  apply (route_decision_range "How do I handle an objection?"
           (Some both_recent) "agnes" (TrainingIntentDetected 1.5) _ eq_refl).
Defined.

(** ** Witness of the ceiling law *)

Lemma generate_calls_capped_witness :
  exists sent,
    calls (snd (generate default_settings groq_down latency [] "susan" None
                         None (Some 5000) false (__init__ default_settings))) =
      sent /\
    Forall (fun c => call_max_tokens c <= 8192) sent.
Proof.
  destruct (generate_calls_capped default_settings groq_down latency []
              "susan" None None (Some 5000) false (__init__ default_settings)
              (make_manager_cover _)) as (sent & Hsent & Hall).
  exists sent. split; [exact Hsent|].
  eapply List.Forall_impl; [|exact Hall].
  intros c (p & Hp & _ & _ & _ & Hle).
  destruct Hp as [<-|[<-|[<-|[]]]]; cbn in Hle; lia.
Defined.

(** * More of the provider manager *)

(** ** An induction principle for the failover loop *)

Section LoopInduction.

Context (settings : Settings)
        (api : ChatRequest -> ResponseData + string)
        (elapsed : ProviderCall -> Z)
        (messages : list Message) (ai_type : string)
        (user_id : option string) (temperature : float)
        (requested : Z) (stream : bool).

Local Abbreviation loop :=
  (generate_loop settings api elapsed messages ai_type user_id
                 temperature requested stream).
Local Abbreviation try_provider :=
  (attempt settings api messages temperature requested stream).
Local Abbreviation the_call := (call_for temperature requested stream).
Local Abbreviation failed_on :=
  (after_failure ai_type user_id temperature requested stream).
Local Abbreviation served_by :=
  (after_success elapsed ai_type user_id temperature requested stream).
Local Abbreviation answer := (result_of elapsed temperature requested stream).

Variable P : list Provider -> list (string * string) -> Manager ->
             outcome GenerateResult * Manager -> Prop.

Hypothesis P_exhausted : forall errors m,
  P [] errors m (Raise (all_failed errors), m).

Hypothesis P_skip : forall p rest errors m,
  configured_model ai_type p = None ->
  P rest errors m (loop rest errors m) ->
  P (p :: rest) errors m (loop rest errors m).

Hypothesis P_success : forall p rest errors m model rd s,
  configured_model ai_type p = Some model ->
  try_provider p model = inl rd ->
  provider_stats m !! name p = Some s ->
  P (p :: rest) errors m (Return (answer p model rd), served_by p model rd s m).

Hypothesis P_failure : forall p rest errors m model e s,
  configured_model ai_type p = Some model ->
  try_provider p model = inr e ->
  provider_stats m !! name p = Some s ->
  P rest (errors ++ [(name p, e)]) (failed_on p model e s m)
    (loop rest (errors ++ [(name p, e)]) (failed_on p model e s m)) ->
  P (p :: rest) errors m
    (loop rest (errors ++ [(name p, e)]) (failed_on p model e s m)).

Hypothesis P_key_error : forall p rest errors m model,
  configured_model ai_type p = Some model ->
  provider_stats m !! name p = None ->
  P (p :: rest) errors m
    (Raise (KeyError (name p)), record_call (the_call p model) m).

Lemma loop_cases ps : forall errors m, P ps errors m (loop ps errors m).
Proof.
  induction ps as [|p ps IH]; intros errors m.
  - apply P_exhausted.
  - destruct (configured_model ai_type p) as [model|] eqn:Hc.
    + destruct (provider_stats m !! name p) as [s|] eqn:Hs.
      * destruct (try_provider p model) as [rd|e] eqn:Ha.
        -- rewrite (loop_success _ _ _ _ _ _ _ _ _ _ _ _ _ _ _ _ Hc Ha Hs).
           apply (P_success _ _ _ _ _ _ _ Hc Ha Hs).
        -- rewrite (loop_failure _ _ _ _ _ _ _ _ _ _ _ _ _ _ _ _ Hc Ha Hs).
           apply (P_failure _ _ _ _ _ _ _ Hc Ha Hs), IH.
      * rewrite (loop_key_error _ _ _ _ _ _ _ _ _ _ _ _ _ _ Hc Hs).
        apply (P_key_error _ _ _ _ _ Hc Hs).
    + rewrite (loop_skip _ _ _ _ _ _ _ _ _ _ _ _ _ Hc).
      apply (P_skip _ _ _ _ Hc), IH.
Qed.

End LoopInduction.

(** ** Providers the manager does not know *)

Definition known_provider (n : string) : bool :=
  String.eqb n "groq" || String.eqb n "together" || String.eqb n "openrouter".

(** A registry with a fourth entry, tried first, that [_call_provider]
    has no branch for. *)
Definition mystery_provider : Provider :=
  {| name := "mystery";
     models := <["susan" := "m-1"]> ∅;
     cost_per_1k_tokens := 0.0001%float;
     priority := 0;
     max_tokens := 1024;
     supports_streaming := false |}.

Definition with_mystery : Manager :=
  make_manager (registered_providers default_settings ++ [mystery_provider]).

Lemma _call_provider_unknown settings api p model messages temperature k stream :
  known_provider (name p) = false ->
  _call_provider settings api p model messages temperature k stream =
  inr ("Unknown provider: " ++ name p).
Proof.
  unfold known_provider, _call_provider. intro H.
  apply orb_false_iff in H as [H Ho]. apply orb_false_iff in H as [Hg Ht].
  rewrite Hg, Ht, Ho. reflexivity.
Qed.

(** X3. A result of [generate] always comes from a provider named groq,
    together or openrouter: for an entry of the registry with any other
    name [_call_provider] raises "Unknown provider: <name>" without
    consulting any API, whatever the APIs would answer, so that such an
    entry can only be logged as a failure. *)
Theorem unknown_provider_never_serves
    settings api elapsed messages ai_type user_id temperature max_tokens
    stream m :
  (forall r,
     fst (generate settings api elapsed messages ai_type user_id temperature
                   max_tokens stream m) = Return r ->
     provider r = "groq" \/ provider r = "together" \/
     provider r = "openrouter") /\
  (forall p model t k,
     known_provider (name p) = false ->
     attempt settings api messages t k stream p model =
     inr ("Unknown provider: " ++ name p)).
Proof.
  split.
  - intros r Hr. unfold generate in Hr.
    destruct (generate_loop _ _ _ _ _ _ _ _ _ _ _ _) as [o m'] eqn:Hloop.
    cbn in Hr. subst o.
    apply loop_returns in Hloop as (p & model & rd & _ & _ & Ha & ->).
    cbn [provider result_of].
    destruct (known_provider (name p)) eqn:Hk.
    + unfold known_provider in Hk.
      apply orb_true_iff in Hk as [Hk|Hk];
        [apply orb_true_iff in Hk as [Hk|Hk]|];
        apply String.eqb_eq in Hk; auto.
    + unfold attempt in Ha.
      rewrite (_call_provider_unknown _ _ _ _ _ _ _ _ Hk) in Ha. discriminate.
  - intros p model t k Hk. apply _call_provider_unknown, Hk.
Qed.

Lemma unknown_provider_never_serves_witness :
  let out := generate default_settings all_up latency [] "susan" (Some "u1")
                      None None false with_mystery in
  (exists r, fst out = Return r /\ provider r = "groq") /\
  map (fun row => (req_provider row, req_success row, req_error_message row))
      (ai_requests (snd out)) =
  [ ("mystery", false, Some "Unknown provider: mystery");
    ("groq", true, None) ].
Proof.
  destruct (unknown_provider_never_serves default_settings all_up latency []
              "susan" (Some "u1") None None false with_mystery) as [Hknown _].
  split; [|reflexivity].
  eexists. split; [reflexivity|]. reflexivity.
Defined.

(** ** Cumulative cost *)

Definition total_cost_of (m : Manager) (n : string) : option float :=
  total_cost <$> provider_stats m !! n.

(** What a call does to the cumulative cost of provider [n]. *)
Definition cost_after (o : outcome GenerateResult) (n : string)
    (before : option float) : option float :=
  match o with
  | Return r =>
      if String.eqb n (provider r)
      then (fun c => PrimFloat.add c (cost r)) <$> before
      else before
  | Raise _ => before
  end.

Section LoopCost.

Context (settings : Settings)
        (api : ChatRequest -> ResponseData + string)
        (elapsed : ProviderCall -> Z)
        (messages : list Message) (ai_type : string)
        (user_id : option string) (temperature : float)
        (requested : Z) (stream : bool).

Local Abbreviation loop :=
  (generate_loop settings api elapsed messages ai_type user_id
                 temperature requested stream).

Lemma total_cost_after_failure p model e s m n :
  provider_stats m !! name p = Some s ->
  total_cost_of
    (after_failure ai_type user_id temperature requested stream p model e s m) n
  = total_cost_of m n.
Proof.
  intro Hs. unfold total_cost_of. cbn. rewrite lookup_insert.
  case_decide; subst; [rewrite Hs|]; reflexivity.
Qed.

Lemma loop_total_cost ps errors m :
  (forall q, In q ps -> is_Some (provider_stats m !! name q)) ->
  forall n,
    total_cost_of (snd (loop ps errors m)) n =
    cost_after (fst (loop ps errors m)) n (total_cost_of m n).
Proof.
  apply (loop_cases settings api elapsed messages ai_type user_id temperature
           requested stream
           (fun ps errors m out =>
              (forall q, In q ps -> is_Some (provider_stats m !! name q)) ->
              forall n, total_cost_of (snd out) n =
                        cost_after (fst out) n (total_cost_of m n))).
  - reflexivity.
  - intros p rest errs m0 _ IH Hcover. apply IH.
    intros q Hq. apply Hcover. right; exact Hq.
  - intros p rest errs m0 model rd s _ _ Hs _ n.
    unfold total_cost_of. cbn. rewrite lookup_insert.
    case_decide as Hn.
    + subst n. rewrite String.eqb_refl, Hs. reflexivity.
    + apply not_eq_sym, String.eqb_neq in Hn. rewrite Hn. reflexivity.
  - intros p rest errs m0 model e s _ _ Hs IH Hcover n.
    rewrite IH.
    + rewrite (total_cost_after_failure p model e s m0 n Hs). reflexivity.
    + intros q Hq.
      destruct (after_failure_accounted ai_type user_id temperature requested
                  stream p model e s m0 Hs) as (row & _ & Hacc).
      apply (acc_keys _ _ _ _ Hacc), Hcover. right; exact Hq.
  - intros p rest errs m0 model _ Hs Hcover.
    destruct (Hcover p (or_introl eq_refl)) as [s Hs']. congruence.
Qed.

End LoopCost.

(** X5. A call of [generate] that returns adds the cost it reports, once,
    to the cumulative cost of the provider that served it, and leaves the
    cumulative cost of every other provider as it was; a call that raises
    leaves every cumulative cost as it was: failed attempts cost nothing. *)
Theorem generate_total_cost
    settings api elapsed messages ai_type user_id temperature max_tokens
    stream m n :
  let out := generate settings api elapsed messages ai_type user_id
                      temperature max_tokens stream m in
  stats_cover m ->
  total_cost_of (snd out) n = cost_after (fst out) n (total_cost_of m n).
Proof.
  intros out Hcover. unfold out, generate.
  apply loop_total_cost, cover_sorted, Hcover.
Qed.

Lemma generate_total_cost_witness :
  let out := generate default_settings groq_down latency [] "susan" None
                      None None false (__init__ default_settings) in
  total_cost_of (snd out) "together" = Some (_calculate_cost 15 0.0009%float) /\
  total_cost_of (snd out) "groq" = Some 0%float.
Proof.
  split.
  - rewrite (generate_total_cost default_settings groq_down latency []
               "susan" None None None false (__init__ default_settings)
               "together" (make_manager_cover _)).
    reflexivity.
  - rewrite (generate_total_cost default_settings groq_down latency []
               "susan" None None None false (__init__ default_settings)
               "groq" (make_manager_cover _)).
    reflexivity.
Defined.

(** ** What the rows of a call say *)

(** The row of a failed attempt: the caller and persona of the call, no
    usage, no cost, no latency, and the text of the error. *)
Definition is_failure_row (user_id : option string) (ai_type : string)
    (row : AIRequest) : Prop :=
  req_user_id row = user_id /\ req_ai_type row = ai_type /\
  req_success row = false /\
  req_prompt_tokens row = None /\ req_completion_tokens row = None /\
  req_total_tokens row = None /\ req_cost_usd row = None /\
  req_response_time_ms row = None /\ is_Some (req_error_message row).

(** The row of the attempt that produced the result [r]. *)
Definition success_row (user_id : option string) (ai_type : string)
    (r : GenerateResult) : AIRequest :=
  {| req_user_id := user_id;
     req_ai_type := ai_type;
     req_provider := provider r;
     req_model := model r;
     req_prompt_tokens := Some (prompt_tokens (usage r));
     req_completion_tokens := Some (completion_tokens (usage r));
     req_total_tokens := Some (total_tokens (usage r));
     req_cost_usd := Some (cost r);
     req_response_time_ms := Some (response_time_ms r);
     req_success := true;
     req_error_message := None |}.

(** The (provider, error) entry a failure row stands for. *)
Definition row_entry (row : AIRequest) : string * string :=
  (req_provider row, default "" (req_error_message row)).

(** The rows of a call, given its outcome and the entries collected
    before. *)
Definition rows_tell (user_id : option string) (ai_type : string)
    (errors : list (string * string)) (o : outcome GenerateResult)
    (rows : list AIRequest) : Prop :=
  match o with
  | Return r =>
      exists failed,
        rows = (failed ++ [success_row user_id ai_type r])%list /\
        Forall (is_failure_row user_id ai_type) failed
  | Raise e =>
      Forall (is_failure_row user_id ai_type) rows /\
      e = all_failed (errors ++ map row_entry rows)
  end.

Section LoopRows.

Context (settings : Settings)
        (api : ChatRequest -> ResponseData + string)
        (elapsed : ProviderCall -> Z)
        (messages : list Message) (ai_type : string)
        (user_id : option string) (temperature : float)
        (requested : Z) (stream : bool).

Local Abbreviation loop :=
  (generate_loop settings api elapsed messages ai_type user_id
                 temperature requested stream).

Lemma loop_rows ps errors m :
  (forall q, In q ps -> is_Some (provider_stats m !! name q)) ->
  exists rows,
    ai_requests (snd (loop ps errors m)) = (ai_requests m ++ rows)%list /\
    rows_tell user_id ai_type errors (fst (loop ps errors m)) rows.
Proof.
  apply (loop_cases settings api elapsed messages ai_type user_id temperature
           requested stream
           (fun ps errors m out =>
              (forall q, In q ps -> is_Some (provider_stats m !! name q)) ->
              exists rows,
                ai_requests (snd out) = (ai_requests m ++ rows)%list /\
                rows_tell user_id ai_type errors (fst out) rows)).
  - intros errs m0 _. exists []. split; [symmetry; apply app_nil_r|].
    split; [constructor|]. cbn. rewrite app_nil_r. reflexivity.
  - intros p rest errs m0 _ IH Hcover. apply IH.
    intros q Hq. apply Hcover. right; exact Hq.
  - intros p rest errs m0 model rd s _ _ _ _.
    eexists. split; [reflexivity|].
    exists []. split; [reflexivity | constructor].
  - intros p rest errs m0 model e s _ _ Hs IH Hcover.
    destruct (after_failure_accounted ai_type user_id temperature requested
                stream p model e s m0 Hs) as (row & _ & Hacc).
    destruct IH as (rows & Hrows & Htell).
    { intros q Hq. apply (acc_keys _ _ _ _ Hacc), Hcover. right; exact Hq. }
    eexists (_ :: rows). split.
    + rewrite Hrows. cbn [after_failure _log_request ai_requests set_stats
                          record_call].
      rewrite <- app_assoc. reflexivity.
    + assert (Hrow : is_failure_row user_id ai_type
                (Build_AIRequest user_id ai_type (name p) model None None None
                   None None false (Some e))).
      { repeat split. eauto. }
      unfold rows_tell in *.
      destruct (fst (loop rest (errs ++ [(name p, e)])%list _)) as [r|ex].
      * destruct Htell as (failed & -> & Hfailed).
        eexists (_ :: failed). split; [reflexivity|].
        constructor; [exact Hrow | exact Hfailed].
      * destruct Htell as [Hall ->]. split.
        -- constructor; [exact Hrow | exact Hall].
        -- cbn [map row_entry req_provider req_error_message default].
           rewrite <- app_assoc. reflexivity.
  - intros p rest errs m0 model _ Hs Hcover.
    destruct (Hcover p (or_introl eq_refl)) as [s Hs']. congruence.
Qed.

End LoopRows.

(** X6. The rows a call of [generate] leaves tell its outcome. They carry
    the caller and the persona of the call. When the call returns, the
    last row is the success row of the result (its provider, model, usage,
    cost and latency) and the rows before it are failure rows, without
    usage or cost; when it raises, every row is a failure row and the
    exception lists exactly the provider and error text of these rows, in
    their order. *)
Theorem generate_rows
    settings api elapsed messages ai_type user_id temperature max_tokens
    stream m :
  let out := generate settings api elapsed messages ai_type user_id
                      temperature max_tokens stream m in
  stats_cover m ->
  exists rows,
    ai_requests (snd out) = (ai_requests m ++ rows)%list /\
    rows_tell user_id ai_type [] (fst out) rows.
Proof.
  intros out Hcover. unfold out, generate.
  apply loop_rows, cover_sorted, Hcover.
Qed.

Lemma generate_rows_witness :
  let out := generate default_settings all_down latency [] "agnes" (Some "u7")
                      None None false (__init__ default_settings) in
  exists rows,
    ai_requests (snd out) = rows /\
    fst out = Raise (all_failed (map row_entry rows)) /\
    map row_entry rows =
      [ ("groq", "timeout at groq"); ("together", "timeout at together");
        ("openrouter", "timeout at openrouter") ].
Proof.
  intro out.
  destruct (generate_rows default_settings all_down latency [] "agnes"
              (Some "u7") None None false (__init__ default_settings)
              (make_manager_cover _)) as (rows & Hrows & Htell).
  fold out in Hrows, Htell.
  change (ai_requests (__init__ default_settings) ++ rows)%list with rows in Hrows.
  exists rows. split; [exact Hrows|].
  assert (Hout : exists e, fst out = Raise e) by (eexists; reflexivity).
  destruct Hout as [e Hout]. rewrite Hout in Htell |- *.
  destruct Htell as [_ ->]. split; [reflexivity|].
  rewrite <- Hrows. reflexivity.
Defined.

(** ** No second try *)

Lemma calls_for_names ai_type temperature requested stream ps :
  map call_provider (calls_for ai_type temperature requested stream ps) =
  map name (List.filter (configured ai_type) ps).
Proof.
  induction ps as [|p ps IH]; [reflexivity|].
  unfold calls_for, configured in *. cbn [flat_map List.filter].
  destruct (configured_model ai_type p); cbn; rewrite IH; reflexivity.
Qed.

Lemma NoDup_names_filter (f : Provider -> bool) ps :
  List.NoDup (map name ps) -> List.NoDup (map name (List.filter f ps)).
Proof.
  induction ps as [|p ps IH]; cbn; [auto|].
  intros [Hp Hps]%List.NoDup_cons_iff.
  destruct (f p); cbn; [|auto].
  apply List.NoDup_cons_iff. split; [|auto].
  intro Hin. apply Hp.
  apply List.in_map_iff in Hin as (q & Hq & Hin).
  apply List.filter_In in Hin as [Hin _].
  apply List.in_map_iff. exists q. auto.
Qed.

Lemma NoDup_names_prefix (pre post : list Provider) :
  List.NoDup (map name (pre ++ post)) -> List.NoDup (map name pre).
Proof.
  rewrite List.map_app. induction (map name pre) as [|x l IH]; cbn.
  - intros _. constructor.
  - intros [Hx Hl]%List.NoDup_cons_iff.
    apply List.NoDup_cons_iff. split; [|auto].
    intro Hin. apply Hx, in_or_app. left; exact Hin.
Qed.

(** X7. When the names of the registry are distinct, a call of [generate]
    calls no provider twice: a provider that failed is not retried within
    the call. *)
Theorem generate_calls_once
    settings api elapsed messages ai_type user_id temperature max_tokens
    stream m :
  let out := generate settings api elapsed messages ai_type user_id
                      temperature max_tokens stream m in
  stats_cover m ->
  List.NoDup (map name (providers m)) ->
  exists sent,
    calls (snd out) = (calls m ++ sent)%list /\
    List.NoDup (map call_provider sent).
Proof.
  intros out Hcover Hnames.
  destruct (generate_accounted settings api elapsed messages ai_type user_id
              temperature max_tokens stream m Hcover)
    as (pre & post & rows & Hsplit & Hacc).
  eexists. split; [apply (acc_calls _ _ _ _ Hacc)|].
  rewrite calls_for_names. apply NoDup_names_filter.
  apply (NoDup_names_prefix pre post). rewrite <- Hsplit.
  apply (Permutation_NoDup
           (Permutation_sym
              (Permutation_map name (sorted_by_priority_perm (providers m))))).
  exact Hnames.
Qed.

Lemma registered_names_distinct settings :
  List.NoDup (map name (registered_providers settings)).
Proof.
  cbn. repeat (apply List.NoDup_cons_iff; split);
    [ intros [H|[H|[]]]; discriminate
    | intros [H|[]]; discriminate
    | intros []
    | constructor ].
Qed.

Lemma generate_calls_once_witness :
  List.NoDup
    (map call_provider
       (calls (snd (generate default_settings all_down latency [] "susan" None
                             None None false (__init__ default_settings))))).
Proof.
  destruct (generate_calls_once default_settings all_down latency [] "susan"
              None None None false (__init__ default_settings)
              (make_manager_cover _) (registered_names_distinct _))
    as (sent & Hsent & Hnodup).
  rewrite Hsent. exact Hnodup.
Defined.

(** ** [get_stats] *)

(** The dict [get_stats] returns. *)
Record StatsReport := {
  report_providers : gmap string Stats;
  total_successes : Z;
  total_failures : Z;
  report_total_cost : float
}.

(** The keys of a dict filled from [l], in insertion order: the first
    occurrence of each name. *)
Fixpoint first_occurrences (seen l : list string) : list string :=
  match l with
  | [] => []
  | x :: l' =>
      if existsb (String.eqb x) seen then first_occurrences seen l'
      else x :: first_occurrences (x :: seen) l'
  end.

(** The keys of [provider_stats] in the order of the dict, for a manager
    whose dict was filled by [__init__] from the registry. *)
Definition stats_keys (m : Manager) : list string :=
  first_occurrences [] (map name (providers m)).

(** [sum] over ints. *)
Definition sum_int (l : list Z) : Z := fold_left Z.add l 0.

Section GetStats.

(** [sum] over floats; how it rounds depends on the interpreter (a plain
    left-to-right sum before Python 3.12, a compensated one since). *)
Variable sum_float : list float -> float.

(** [AIProviderManager.get_stats]. *)
Definition get_stats (m : Manager) : StatsReport :=
  let values := omap (fun n => provider_stats m !! n) (stats_keys m) in
  {| report_providers := provider_stats m;
     total_successes := sum_int (map successes values);
     total_failures := sum_int (map failures values);
     report_total_cost := sum_float (map total_cost values) |}.

End GetStats.

(** Number of rows with success flag [b]. *)
Definition count_flag (b : bool) (rows : list AIRequest) : Z :=
  Z.of_nat (length (List.filter (fun r => Bool.eqb (req_success r) b) rows)).

(** The counters of every provider are the numbers of its rows, and every
    row is the row of a registered provider. *)
Definition ledger_exact (m : Manager) : Prop :=
  (forall n, successes_of m n = count_rows n true (ai_requests m) /\
             failures_of m n = count_rows n false (ai_requests m)) /\
  Forall (fun r => In (req_provider r) (map name (providers m)))
         (ai_requests m).

Lemma sum_int_cons x l : sum_int (x :: l) = x + sum_int l.
Proof.
  unfold sum_int. cbn [fold_left].
  assert (H : forall l a b, fold_left Z.add l (a + b) = a + fold_left Z.add l b).
  { clear. induction l as [|y l IH]; intros a b; cbn [fold_left]; [reflexivity|].
    rewrite <- Z.add_assoc. apply IH. }
  change (0 + x) with x. rewrite <- (H l x 0), Z.add_0_r. reflexivity.
Qed.

Lemma first_occurrences_in seen l x :
  In x (first_occurrences seen l) <-> In x l /\ ~ In x seen.
Proof.
  revert seen. induction l as [|y l IH]; intro seen; cbn; [tauto|].
  destruct (existsb (String.eqb y) seen) eqn:E.
  - apply existsb_exists in E as (z & Hz & Hyz). apply String.eqb_eq in Hyz.
    subst z. rewrite IH. split; [tauto|].
    intros [[->|H] Hn]; [contradiction | tauto].
  - assert (Hy : ~ In y seen).
    { intro Hin. assert (existsb (String.eqb y) seen = true); [|congruence].
      apply existsb_exists. exists y. split; [exact Hin | apply String.eqb_refl]. }
    cbn. rewrite IH. cbn.
    destruct (string_dec y x) as [->|Hne]; [tauto|]. tauto.
Qed.

Lemma first_occurrences_NoDup seen l : List.NoDup (first_occurrences seen l).
Proof.
  revert seen. induction l as [|y l IH]; intro seen; cbn; [constructor|].
  destruct (existsb (String.eqb y) seen); [apply IH|].
  apply List.NoDup_cons_iff. split; [|apply IH].
  rewrite first_occurrences_in. cbn. tauto.
Qed.

Lemma sum_over_keys (stats : gmap string Stats) (f : Stats -> Z)
    (g : string -> Z) keys :
  (forall n, In n keys -> exists s, stats !! n = Some s /\ f s = g n) ->
  sum_int (map f (omap (fun n => stats !! n) keys)) = sum_int (map g keys).
Proof.
  induction keys as [|k keys IH]; intro H; [reflexivity|].
  destruct (H k (or_introl eq_refl)) as (s & Hs & Hf).
  cbn [omap list_omap map]. change (list_omap ?f ?l) with (omap f l).
  rewrite Hs. cbn [map]. rewrite !sum_int_cons, Hf, IH; [reflexivity|].
  intros n Hn. apply H. right; exact Hn.
Qed.

Lemma indicator_sum x (bb : bool) keys :
  List.NoDup keys -> In x keys ->
  sum_int (map (fun n => if String.eqb x n && bb then 1 else 0) keys) =
  if bb then 1 else 0.
Proof.
  induction keys as [|k keys IH]; intros Hnd Hin; [destruct Hin|].
  apply List.NoDup_cons_iff in Hnd as [Hk Hnd].
  cbn [map]. rewrite sum_int_cons.
  destruct (String.eqb_spec x k) as [->|Hne].
  - assert (Hz : sum_int (map (fun n => if String.eqb k n && bb then 1 else 0)
                              keys) = 0).
    { clear IH Hin Hnd. induction keys as [|j keys IH]; [reflexivity|].
      cbn [map]. rewrite sum_int_cons.
      destruct (String.eqb_spec k j) as [->|_].
      - exfalso. apply Hk. left; reflexivity.
      - cbn [andb]. rewrite IH; [reflexivity|].
        intro Hj. apply Hk. right; exact Hj. }
    rewrite Hz. cbn [andb]. destruct bb; reflexivity.
  - cbn [andb]. destruct Hin as [->|Hin]; [contradiction|].
    rewrite (IH Hnd Hin). reflexivity.
Qed.

Lemma sum_int_add (f g : string -> Z) keys :
  sum_int (map (fun n => f n + g n) keys) =
  sum_int (map f keys) + sum_int (map g keys).
Proof.
  induction keys as [|k keys IH]; [reflexivity|].
  cbn [map]. rewrite !sum_int_cons, IH. lia.
Qed.

Lemma sum_int_ext (f g : string -> Z) keys :
  (forall n, f n = g n) -> sum_int (map f keys) = sum_int (map g keys).
Proof.
  intro H. induction keys as [|k keys IH]; [reflexivity|].
  cbn [map]. rewrite !sum_int_cons, IH, H. reflexivity.
Qed.

(** Summed over distinct keys that cover the rows' providers, the
    per-provider counts give the count of all rows. *)
Lemma count_rows_sum b keys rows :
  List.NoDup keys ->
  Forall (fun r => In (req_provider r) keys) rows ->
  sum_int (map (fun n => count_rows n b rows) keys) = count_flag b rows.
Proof.
  intros Hnd. induction 1 as [|r rows Hr Hrows IH].
  - unfold count_rows, count_flag. cbn.
    induction keys as [|k keys IHk]; [reflexivity|].
    cbn [map]. rewrite sum_int_cons.
    apply List.NoDup_cons_iff in Hnd as [_ Hnd]. rewrite (IHk Hnd). reflexivity.
  - rewrite (sum_int_ext _
               (fun n => (if String.eqb (req_provider r) n &&
                             Bool.eqb (req_success r) b then 1 else 0)
                         + count_rows n b rows)).
    + rewrite sum_int_add, IH, (indicator_sum _ _ _ Hnd Hr).
      unfold count_flag. cbn [List.filter].
      destruct (Bool.eqb (req_success r) b); cbn [length]; lia.
    + intro n. unfold count_rows. cbn [List.filter].
      destruct (String.eqb (req_provider r) n && Bool.eqb (req_success r) b);
        cbn [length]; lia.
Qed.

Lemma count_flag_total rows :
  count_flag true rows + count_flag false rows = Z.of_nat (length rows).
Proof.
  unfold count_flag. induction rows as [|r rows IH]; [reflexivity|].
  cbn [List.filter]. destruct (req_success r); cbn [Bool.eqb length]; lia.
Qed.

Lemma rows_of_calls_known (ps : list Provider) tried rows :
  Forall (fun c => exists p, In p ps /\ call_provider c = name p) tried ->
  Forall2 (fun c r => req_provider r = call_provider c /\
                      req_model r = call_model c) tried rows ->
  Forall (fun r => In (req_provider r) (map name ps)) rows.
Proof.
  intros Hall H2. induction H2 as [|c r tried rows [Hr _] _ IH]; [constructor|].
  apply Forall_cons_1 in Hall as [(p & Hp & Hc) Hall].
  constructor; [|apply IH, Hall].
  rewrite Hr, Hc. apply in_map, Hp.
Qed.

Lemma reachable_exact m : reachable m -> ledger_exact m.
Proof.
  induction 1 as [ps|settings api elapsed messages ai_type user_id
                     temperature max_tokens stream m Hm [Hcount Hknown]].
  - split; [|constructor].
    intro n. unfold successes_of, failures_of, count_rows. cbn.
    rewrite fold_insert_new_stats.
    destruct (existsb _ ps); split; reflexivity.
  - destruct (reachable_well_formed m Hm) as [Hcover _].
    destruct (generate_accounted settings api elapsed messages ai_type user_id
                temperature max_tokens stream m Hcover)
      as (pre & post & rows & Hsplit & Hacc).
    split.
    + intro n. destruct (Hcount n) as [Hs Hf].
      rewrite (acc_successes _ _ _ _ Hacc), (acc_failures _ _ _ _ Hacc),
              (acc_rows _ _ _ _ Hacc), !count_rows_app, Hs, Hf.
      split; reflexivity.
    + rewrite (acc_rows _ _ _ _ Hacc), (acc_providers _ _ _ _ Hacc).
      apply Forall_app. split; [exact Hknown|].
      apply (rows_of_calls_known (providers m)
               (calls_for ai_type
                  (Py.or_float temperature (AI_TEMPERATURE settings))
                  (Py.or_int max_tokens (AI_MAX_TOKENS settings)) stream pre)
               rows);
        [|apply (acc_one_row _ _ _ _ Hacc)].
      eapply List.Forall_impl; [|apply calls_for_capped].
      intros c (p & Hp & Hc & _). exists p. split; [|exact Hc].
      apply (Permutation_in _ (sorted_by_priority_perm (providers m))).
      rewrite Hsplit. apply in_or_app. left; exact Hp.
Qed.

(** X8. On a manager built by [__init__] and used through [generate],
    [get_stats] reports the very [provider_stats] of the manager, a total
    of successes that is the number of success rows ever logged, and a
    total of failures that is the number of failure rows: the two totals
    add up to the number of attempts logged. *)
Theorem get_stats_totals sum_float m :
  let report := get_stats sum_float m in
  reachable m ->
  report_providers report = provider_stats m /\
  total_successes report = count_flag true (ai_requests m) /\
  total_failures report = count_flag false (ai_requests m) /\
  total_successes report + total_failures report =
    Z.of_nat (length (ai_requests m)).
Proof.
  intros report Hm.
  destruct (reachable_well_formed m Hm) as [Hcover _].
  destruct (reachable_exact m Hm) as [Hcount Hknown].
  assert (Hkeys : forall n, In n (stats_keys m) ->
                            exists s, provider_stats m !! n = Some s).
  { intros n Hn. apply first_occurrences_in in Hn as [Hn _].
    apply List.in_map_iff in Hn as (p & <- & Hp).
    destruct (Hcover p Hp) as [s Hs]. eauto. }
  assert (Hrows : Forall (fun r => In (req_provider r) (stats_keys m))
                         (ai_requests m)).
  { eapply List.Forall_impl; [|exact Hknown].
    intros r Hr. apply first_occurrences_in. split; [exact Hr | intros []]. }
  assert (Hs : total_successes report = count_flag true (ai_requests m)).
  { unfold report, get_stats. cbn [total_successes].
    rewrite (sum_over_keys _ successes
               (fun n => count_rows n true (ai_requests m))).
    - apply count_rows_sum; [apply first_occurrences_NoDup | exact Hrows].
    - intros n Hn. destruct (Hkeys n Hn) as [s Hs]. exists s. split; [exact Hs|].
      destruct (Hcount n) as [H _]. unfold successes_of in H.
      rewrite Hs in H. exact H. }
  assert (Hf : total_failures report = count_flag false (ai_requests m)).
  { unfold report, get_stats. cbn [total_failures].
    rewrite (sum_over_keys _ failures
               (fun n => count_rows n false (ai_requests m))).
    - apply count_rows_sum; [apply first_occurrences_NoDup | exact Hrows].
    - intros n Hn. destruct (Hkeys n Hn) as [s Hn']. exists s.
      split; [exact Hn'|].
      destruct (Hcount n) as [_ H]. unfold failures_of in H.
      rewrite Hn' in H. exact H. }
  split; [reflexivity|]. split; [exact Hs|]. split; [exact Hf|].
  rewrite Hs, Hf. apply count_flag_total.
Qed.

Lemma get_stats_totals_witness :
  let m := snd (generate default_settings groq_down latency [] "susan" None
                         None None false (__init__ default_settings)) in
  total_successes (get_stats (fun _ => 0%float) m) = 1 /\
  total_failures (get_stats (fun _ => 0%float) m) = 1.
Proof.
  intro m.
  destruct (get_stats_totals (fun _ => 0%float) m
              (reachable_generate _ _ _ _ _ _ _ _ _ _ (reachable_init _)))
    as (_ & Hs & Hf & _).
  split; [rewrite Hs | rewrite Hf]; reflexivity.
Defined.

(** * More of the intelligent router *)

(** ** The order of the rules *)



(** ** Letter case of the message *)

(** [s.upper()]. *)
Fixpoint upper (s : string) : string :=
  match s with
  | EmptyString => EmptyString
  | String c s' => String (Py.upper_char c) (upper s')
  end.

Lemma lower_upper_char c : Py.lower_char (Py.upper_char c) = Py.lower_char c.
Proof. destruct c as [[] [] [] [] [] [] [] []]; reflexivity. Qed.

Lemma lower_lower_char c : Py.lower_char (Py.lower_char c) = Py.lower_char c.
Proof. destruct c as [[] [] [] [] [] [] [] []]; reflexivity. Qed.

Lemma lower_upper s : Py.lower (upper s) = Py.lower s.
Proof.
  induction s as [|c s IH]; [reflexivity|].
  cbn [upper Py.lower]. rewrite lower_upper_char, IH. reflexivity.
Qed.

Lemma lower_lower s : Py.lower (Py.lower s) = Py.lower s.
Proof.
  induction s as [|c s IH]; [reflexivity|].
  cbn [Py.lower]. rewrite lower_lower_char, IH. reflexivity.
Qed.

Lemma route_by_lowered m1 m2 context :
  Py.lower m1 = Py.lower m2 -> route m1 context = route m2 context.
Proof. intro H. unfold route. rewrite H. reflexivity. Qed.

(** X10. [route] and [suggest_handoff] do not see the letter case of the
    message: two messages that differ only in case get the same decision
    and the same suggestion; in particular a message, its upper-case form
    and its lower-case form are routed alike. *)
Theorem route_ignores_letter_case :
  (forall m1 m2 context,
     Py.lower m1 = Py.lower m2 -> route m1 context = route m2 context) /\
  (forall m1 m2 current n,
     Py.lower m1 = Py.lower m2 ->
     suggest_handoff current m1 n = suggest_handoff current m2 n) /\
  (forall msg context,
     route (upper msg) context = route msg context /\
     route (Py.lower msg) context = route msg context).
Proof.
  split; [exact route_by_lowered|]. split.
  - intros m1 m2 current n H. unfold suggest_handoff.
    rewrite (route_by_lowered m1 m2 None H). reflexivity.
  - intros msg context. split; apply route_by_lowered;
      [apply lower_upper | apply lower_lower].
Qed.

Lemma route_ignores_letter_case_witness :
  route "LET'S ROLEPLAY THIS" None = route "let's roleplay this" None.
Proof.
  destruct route_ignores_letter_case as [Hroute _].
  apply Hroute. reflexivity.
Defined.

(** ** Where confidence 1.0 comes from *)

(** A decision by scores stays strictly below 1.0. *)
Definition below_one (a b : float) : bool :=
  match decide_by_scores a b with
  | Return (_, _, conf) => PrimFloat.ltb conf 1
  | Raise _ => false
  end.

Lemma below_one_checked :
  all_pairs below_one training_scores technical_scores = true.
Proof. vm_compute. reflexivity. Qed.

(** X11. A decision of [route] reached by comparing scores always has a
    confidence strictly below 1.0: the cap [min(..., 1.0)] never binds,
    and confidence 1.0 is only ever given by an explicit mention or by an
    active training scenario. *)
Theorem full_confidence_needs_a_rule msg context ai why conf :
  route msg context = Return (ai, why, conf) ->
  PrimFloat.ltb conf 1 = false ->
  why = ExplicitMentionOfSusan \/ why = ExplicitMentionOfAgnes \/
  why = ActiveTrainingScenario.
Proof.
  unfold route.
  destruct (explicit_mention _) as [decision|] eqn:Hm.
  { unfold explicit_mention in Hm.
    destruct (_ && _) in Hm; [injection Hm as <-; intros [= _ <- _] _; auto|].
    destruct (_ && _) in Hm; [|discriminate].
    injection Hm as <-. intros [= _ <- _] _. auto. }
  destruct (context_rules _) as [[decision|]|e] eqn:Hc;
    cbn [mbind outcome_bind]; [| |discriminate].
  { destruct (context_rules_decision _ _ Hc) as [->|[[streak ->]|[streak ->]]].
    - intros [= _ <- _] _. auto.
    - intros [= _ _ <-] H. discriminate H.
    - intros [= _ _ <-] H. discriminate H. }
  destruct (final_scores_reach (Py.lower msg) (default empty_context context))
    as [Ha Hb].
  destruct (context_adjustments _ _) as [a b]. cbn [fst snd] in Ha, Hb.
  pose proof (all_pairs_in below_one training_scores technical_scores a b
                below_one_checked Ha Hb) as Hok.
  unfold below_one in Hok. intros Hd Hconf. rewrite Hd in Hok. congruence.
Qed.

Lemma full_confidence_needs_a_rule_witness :
  ActiveTrainingScenario = ExplicitMentionOfSusan \/
  ActiveTrainingScenario = ExplicitMentionOfAgnes \/
  ActiveTrainingScenario = ActiveTrainingScenario.
Proof.
  exact (full_confidence_needs_a_rule "I have a question" (Some in_training)
           "agnes" ActiveTrainingScenario 1%float eq_refl eq_refl).
Defined.

(** ** What a suggestion looks like *)

Lemma handoff_message_names_target current target :
  target = "susan" \/ target = "agnes" ->
  Py.contains (Py.title target) (_generate_handoff_message current target)
  = true.
Proof.
  unfold _generate_handoff_message.
  intros [->| ->];
    destruct (String.eqb current "susan"), (String.eqb current "agnes");
    reflexivity.
Qed.

(** X12. A suggestion of [suggest_handoff] is only made from the third
    turn on; it names Susan or Agnes, never the current persona; its
    confidence is at least 0.8 and at most 1.0; its reason is never a rule
    of the conversation context; and its message names the suggested
    persona (Susan or Agnes, capitalised). *)
Theorem handoff_suggestion_shape current msg n h :
  suggest_handoff current msg n = Return (Some h) ->
  3 <= n /\
  (suggested_ai h = "susan" \/ suggested_ai h = "agnes") /\
  suggested_ai h <> current /\
  PrimFloat.leb 0.8 (confidence h) = true /\
  PrimFloat.leb (confidence h) 1 = true /\
  (forall streak,
     reason h <> ActiveTrainingScenario /\
     reason h <> TrainingSessionContinuity streak /\
     reason h <> TechnicalConsultationContinuity streak) /\
  Py.contains (Py.title (suggested_ai h)) (message h) = true.
Proof.
  intro Hs.
  destruct (Z.ltb_spec n 3) as [Hn|Hn].
  { unfold suggest_handoff in Hs.
    destruct (Z.ltb_spec n 3); [discriminate | lia]. }
  destruct (route_bare_returns msg) as [[[ai why] conf] Hr].
  destruct (route_range msg None ai why conf Hr) as (Hai & _ & Hle).
  rewrite (suggest_handoff_late current msg n _ Hn Hr) in Hs.
  cbn [handoff_for] in Hs.
  destruct (String.eqb_spec ai current) as [|Hne]; [discriminate|].
  destruct (PrimFloat.leb 0.8 conf) eqn:Hconf; [|discriminate].
  cbn [negb andb] in Hs. injection Hs as <-.
  cbn [suggested_ai confidence reason message].
  repeat split; try assumption.
  - rewrite route_no_context in Hr. unfold route_without_context in Hr.
    intros ->. destruct (explicit_mention _) as [d|] eqn:Hm.
    + unfold explicit_mention in Hm.
      destruct (_ && _) in Hm; [injection Hm as <-; discriminate|].
      destruct (_ && _) in Hm; [injection Hm as <-; discriminate|discriminate].
    + destruct (message_scores _) as [a b].
      unfold decide_by_scores, Py.truediv in Hr.
      repeat (destruct (PrimFloat.ltb _ _) in Hr ||
              destruct (PrimFloat.eqb _ _) in Hr); discriminate.
  - rewrite route_no_context in Hr. unfold route_without_context in Hr.
    intros ->. destruct (explicit_mention _) as [d|] eqn:Hm.
    + unfold explicit_mention in Hm.
      destruct (_ && _) in Hm; [injection Hm as <-; discriminate|].
      destruct (_ && _) in Hm; [injection Hm as <-; discriminate|discriminate].
    + destruct (message_scores _) as [a b].
      unfold decide_by_scores, Py.truediv in Hr.
      repeat (destruct (PrimFloat.ltb _ _) in Hr ||
              destruct (PrimFloat.eqb _ _) in Hr); discriminate.
  - rewrite route_no_context in Hr. unfold route_without_context in Hr.
    intros ->. destruct (explicit_mention _) as [d|] eqn:Hm.
    + unfold explicit_mention in Hm.
      destruct (_ && _) in Hm; [injection Hm as <-; discriminate|].
      destruct (_ && _) in Hm; [injection Hm as <-; discriminate|discriminate].
    + destruct (message_scores _) as [a b].
      unfold decide_by_scores, Py.truediv in Hr.
      repeat (destruct (PrimFloat.ltb _ _) in Hr ||
              destruct (PrimFloat.eqb _ _) in Hr); discriminate.
  - apply handoff_message_names_target, Hai.
Qed.

Lemma handoff_suggestion_shape_witness :
  exists h,
    suggest_handoff "agnes" "What does the insurance policy cover?" 4 =
      Return (Some h) /\
    suggested_ai h = "susan" /\
    Py.contains "Susan" (message h) = true.
Proof.
  eexists. split; [reflexivity|].
  destruct (handoff_suggestion_shape "agnes"
              "What does the insurance policy cover?" 4 _ eq_refl)
    as (_ & _ & _ & _ & _ & _ & Hmsg).
  split; [reflexivity | exact Hmsg].
Defined.

(** * The email customiser

    [EmailGenerator._customize_with_ai] of [email/generator.py] asks the
    gateway to improve an email and reads the new subject and body out of
    the answer; whatever goes wrong, it hands back the email it was
    given. *)

(** ** More Python string primitives *)

Module Str.

(** [c.isspace()] on an ASCII character: tab, line feed, vertical tab,
    form feed, carriage return, the four separators 28 to 31, and space. *)
Definition is_space (c : ascii) : bool :=
  let n := N_of_ascii c in
  ((9 <=? n)%N && (n <=? 13)%N) || ((28 <=? n)%N && (n <=? 32)%N).

(** [s.lstrip()]. *)
Fixpoint lstrip (s : string) : string :=
  match s with
  | EmptyString => EmptyString
  | String c s' => if is_space c then lstrip s' else s
  end.

(** [s.rstrip()]. *)
Fixpoint rstrip (s : string) : string :=
  match s with
  | EmptyString => EmptyString
  | String c s' =>
      match rstrip s' with
      | EmptyString => if is_space c then EmptyString else String c EmptyString
      | String d r => String c (String d r)
      end
  end.

(** [s.strip()]. *)
Definition strip (s : string) : string := rstrip (lstrip s).

(** [s.split(sep)] for a non-empty [sep]: the text is cut at the
    occurrences of [sep] found from left to right, an occurrence starting
    where the one before ends at the earliest. [skip] characters of the
    occurrence found last are still to be passed over; [piece] is the
    part read since. *)
Fixpoint split_from (sep : string) (skip : nat) (piece s : string)
    : list string :=
  match s with
  | EmptyString => [piece]
  | String c s' =>
      match skip with
      | S k => split_from sep k piece s'
      | O =>
          if String.prefix sep s
          then piece :: split_from sep (String.length sep - 1) "" s'
          else split_from sep 0 (piece ++ String c "") s'
      end
  end.

Definition split (s sep : string) : list string := split_from sep 0 "" s.

(** [l[i]]: [None] stands for the [IndexError]. *)
Definition item {A} (l : list A) (i : nat) : option A := nth_error l i.

End Str.

(** [c in w] for a character. *)
Fixpoint char_in (c : ascii) (w : string) : bool :=
  match w with
  | EmptyString => false
  | String d w' => Ascii.eqb c d || char_in c w'
  end.

Lemma append_cons c (a b : string) : String c a ++ b = String c (a ++ b).
Proof. reflexivity. Qed.

Lemma append_nil_l (b : string) : "" ++ b = b.
Proof. reflexivity. Qed.

Lemma append_assoc (a b c : string) : (a ++ b) ++ c = a ++ b ++ c.
Proof.
  induction a as [|x a IH]; [reflexivity|].
  rewrite !append_cons, IH. reflexivity.
Qed.

Lemma append_nil_r (a : string) : a ++ "" = a.
Proof.
  induction a as [|x a IH]; [reflexivity|].
  rewrite append_cons, IH. reflexivity.
Qed.

Lemma prefix_app_self w r : String.prefix w (w ++ r) = true.
Proof.
  induction w as [|c w IH]; [destruct r; reflexivity|].
  rewrite append_cons. cbn.
  destruct (ascii_dec c c); [exact IH | congruence].
Qed.

Lemma prefix_nil w : String.prefix w "" = true -> w = "".
Proof. destruct w; [reflexivity | discriminate]. Qed.

Lemma prefix_nil_l s : String.prefix "" s = true.
Proof. destruct s; reflexivity. Qed.

Lemma prefix_app w x y :
  String.prefix w x = true -> String.prefix w (x ++ y) = true.
Proof.
  revert x. induction w as [|c w IH]; intros x H; [apply prefix_nil_l|].
  destruct x as [|d x]; [discriminate|].
  rewrite append_cons. cbn in *.
  destruct (ascii_dec c d); [apply IH, H | discriminate].
Qed.

Lemma prefix_other d w c z :
  char_in c (String d w) = false ->
  String.prefix (String d w) (String c z) = false.
Proof.
  intro Hc. cbn. destruct (ascii_dec d c) as [->|]; [|reflexivity].
  cbn in Hc. rewrite Ascii.eqb_refl in Hc. discriminate.
Qed.

(** An occurrence of [w] cannot run over a character that is not in [w]. *)
Lemma prefix_barrier w x c z :
  char_in c w = false ->
  String.prefix w (x ++ String c z) = true -> String.prefix w x = true.
Proof.
  revert x. induction w as [|d w IH]; intros x Hc H; [apply prefix_nil_l|].
  destruct x as [|e x].
  - rewrite append_nil_l, prefix_other in H by exact Hc. discriminate.
  - rewrite append_cons in H. cbn in H |- *.
    cbn in Hc. apply orb_false_iff in Hc as [_ Hw].
    destruct (ascii_dec d e); [apply IH; assumption | discriminate].
Qed.

Lemma prefix_barrier_eq w x c z :
  char_in c w = false ->
  String.prefix w (x ++ String c z) = String.prefix w x.
Proof.
  intro Hc. destruct (String.prefix w x) eqn:E.
  - apply prefix_app, E.
  - destruct (String.prefix w (x ++ String c z)) eqn:E'; [|reflexivity].
    apply prefix_barrier in E'; [congruence | exact Hc].
Qed.

Lemma contains_nil_l s : Py.contains "" s = true.
Proof. destruct s; reflexivity. Qed.

Lemma contains_barrier w x c z :
  char_in c w = false ->
  Py.contains w (x ++ String c z) = Py.contains w x || Py.contains w z.
Proof.
  intro Hc. induction x as [|e x IH].
  - destruct w as [|d w]; [rewrite !contains_nil_l; reflexivity|].
    rewrite append_nil_l. cbn [Py.contains].
    rewrite prefix_other by exact Hc. reflexivity.
  - rewrite append_cons. cbn [Py.contains].
    rewrite <- append_cons, prefix_barrier_eq by exact Hc.
    rewrite IH, orb_assoc. reflexivity.
Qed.

Section Split.

Variable sep : string.

Lemma split_skip a : forall piece r,
  Str.split_from sep (String.length a) piece (a ++ r) =
  Str.split_from sep 0 piece r.
Proof.
  induction a as [|c a IH]; intros piece r.
  - rewrite append_nil_l. destruct r; reflexivity.
  - rewrite append_cons. cbn. apply IH.
Qed.

(** At an occurrence of the separator the piece read so far is closed. *)
Lemma split_at_sep piece r :
  sep <> "" ->
  Str.split_from sep 0 piece (sep ++ r) = piece :: Str.split_from sep 0 "" r.
Proof.
  intro Hne. destruct sep as [|c w] eqn:E; [congruence|].
  rewrite append_cons. cbn [Str.split_from].
  rewrite <- append_cons, prefix_app_self. cbn [String.length].
  rewrite Nat.sub_succ, Nat.sub_0_r. f_equal. 
  rewrite <- E. rewrite <- (split_skip w "" r). rewrite E. reflexivity.
Qed.

(** A part without the separator, closed by a character that is not in
    the separator, is read into the piece. *)
Lemma split_barrier a c z : forall piece,
  Py.contains sep a = false -> char_in c sep = false ->
  Str.split_from sep 0 piece (a ++ String c z) =
  Str.split_from sep 0 (piece ++ a ++ String c "") z.
Proof.
  induction a as [|e a IH]; intros piece Ha Hc.
  - rewrite !append_nil_l. cbn [Str.split_from].
    destruct sep as [|d w]; [discriminate|].
    rewrite prefix_other by exact Hc. reflexivity.
  - cbn [Py.contains] in Ha. apply orb_false_iff in Ha as [Hp Ha].
    rewrite !append_cons. cbn [Str.split_from].
    rewrite <- append_cons, prefix_barrier_eq, Hp by exact Hc.
    rewrite IH by assumption. rewrite append_assoc. reflexivity.
Qed.

(** A text without the separator is one piece. *)
Lemma split_end a : forall piece,
  Py.contains sep a = false ->
  Str.split_from sep 0 piece a = [piece ++ a].
Proof.
  induction a as [|e a IH]; intros piece Ha.
  - cbn. rewrite append_nil_r. reflexivity.
  - cbn [Py.contains] in Ha. apply orb_false_iff in Ha as [Hp Ha].
    cbn [Str.split_from]. rewrite Hp, IH by exact Ha.
    rewrite append_assoc. reflexivity.
Qed.

(** The first piece extends the piece read so far. *)
Lemma split_head s : forall k piece,
  exists t l, Str.split_from sep k piece s = (piece ++ t) :: l.
Proof.
  induction s as [|c s IH]; intros k piece.
  - exists "", []. cbn. rewrite append_nil_r. reflexivity.
  - destruct k as [|k]; cbn [Str.split_from].
    + destruct (String.prefix sep (String c s)).
      * exists "". eexists. rewrite append_nil_r. reflexivity.
      * destruct (IH 0%nat (piece ++ String c "")) as (t & l & ->).
        exists (String c t), l. rewrite append_assoc. reflexivity.
    + apply IH.
Qed.

(** When the separator occurs, there are at least two pieces. *)
Lemma split_found s : forall piece,
  sep <> "" -> Py.contains sep s = true ->
  exists x y l, Str.split_from sep 0 piece s = x :: y :: l.
Proof.
  induction s as [|c s IH]; intros piece Hne H.
  - cbn in H. rewrite orb_false_r in H. apply prefix_nil in H. congruence.
  - cbn [Str.split_from]. destruct (String.prefix sep (String c s)) eqn:Hp.
    + destruct (split_head s (String.length sep - 1) "") as (t & l & ->).
      eauto.
    + cbn [Py.contains] in H. rewrite Hp in H. apply IH; assumption.
Qed.

End Split.

(** Stripping a text closed by white space. *)

Fixpoint all_space (s : string) : bool :=
  match s with
  | EmptyString => true
  | String c s' => Str.is_space c && all_space s'
  end.

Lemma lstrip_all_space s : all_space s = true -> Str.lstrip s = "".
Proof.
  induction s as [|c s IH]; [reflexivity|]. cbn.
  destruct (Str.is_space c); [exact IH | discriminate].
Qed.

Lemma lstrip_app_space s c :
  Str.is_space c = true ->
  Str.lstrip (s ++ String c "") =
  if all_space s then "" else Str.lstrip s ++ String c "".
Proof.
  intro Hc. induction s as [|d s IH].
  - rewrite append_nil_l. cbn. rewrite Hc. reflexivity.
  - rewrite append_cons. cbn [Str.lstrip all_space].
    destruct (Str.is_space d); [exact IH | reflexivity].
Qed.

Lemma rstrip_app_space s c :
  Str.is_space c = true -> Str.rstrip (s ++ String c "") = Str.rstrip s.
Proof.
  intro Hc. induction s as [|d s IH].
  - rewrite append_nil_l. cbn. rewrite Hc. reflexivity.
  - rewrite append_cons. cbn [Str.rstrip]. rewrite IH. reflexivity.
Qed.

Lemma strip_space_l c s :
  Str.is_space c = true -> Str.strip (String c s) = Str.strip s.
Proof. intro Hc. unfold Str.strip. cbn [Str.lstrip]. rewrite Hc. reflexivity. Qed.

Lemma strip_space_r s c :
  Str.is_space c = true -> Str.strip (s ++ String c "") = Str.strip s.
Proof.
  intro Hc. unfold Str.strip. rewrite lstrip_app_space by exact Hc.
  destruct (all_space s) eqn:E.
  - rewrite lstrip_all_space by exact E. reflexivity.
  - apply rstrip_app_space, Hc.
Qed.

(** The text before the first occurrence of [sep], all of it when there
    is none. *)
Fixpoint before (sep s : string) : string :=
  match s with
  | EmptyString => EmptyString
  | String c s' =>
      if String.prefix sep s then EmptyString else String c (before sep s')
  end.

Lemma contains_app_l w u y :
  Py.contains w y = true -> Py.contains w (u ++ y) = true.
Proof.
  intro H. induction u as [|c u IH]; [exact H|].
  rewrite append_cons. cbn [Py.contains]. rewrite IH. apply orb_true_r.
Qed.

Lemma contains_app_r w y v :
  Py.contains w y = true -> Py.contains w (y ++ v) = true.
Proof.
  induction y as [|c y IH]; intro H.
  - cbn in H. rewrite orb_false_r in H. apply prefix_nil in H as ->.
    apply contains_nil_l.
  - rewrite append_cons. cbn [Py.contains] in H |- *.
    apply orb_true_iff in H as [H|H].
    + rewrite <- append_cons, (prefix_app _ _ _ H). reflexivity.
    + rewrite (IH H). apply orb_true_r.
Qed.

Lemma prefix_split w s :
  String.prefix w s = true -> exists r, s = w ++ r.
Proof.
  revert s. induction w as [|c w IH]; intros s H; [exists s; reflexivity|].
  destruct s as [|d s]; [discriminate|]. cbn in H.
  destruct (ascii_dec c d) as [->|]; [|discriminate].
  destruct (IH s H) as [r ->]. exists r. reflexivity.
Qed.

Section Before.

Variable sep : string.
Hypothesis sep_not_empty : sep <> "".

Lemma before_is_prefix s : exists r, s = before sep s ++ r.
Proof.
  induction s as [|c s [r IH]]; [exists ""; reflexivity|].
  cbn [before]. destruct (String.prefix sep (String c s)).
  - exists (String c s). reflexivity.
  - exists r. rewrite append_cons, <- IH. reflexivity.
Qed.

(** The text before the first occurrence holds no occurrence. *)
Lemma before_clean s : Py.contains sep (before sep s) = false.
Proof.
  induction s as [|c s IH].
  - cbn. destruct sep; [congruence | reflexivity].
  - cbn [before]. destruct (String.prefix sep (String c s)) eqn:Hp.
    + cbn. destruct sep; [congruence | reflexivity].
    + cbn [Py.contains]. rewrite IH, orb_false_r.
      destruct (String.prefix sep (String c (before sep s))) eqn:Hq;
        [|reflexivity].
      destruct (before_is_prefix s) as [r Hr].
      rewrite Hr, <- append_cons, (prefix_app _ _ _ Hq) in Hp. discriminate.
Qed.

(** [s.split(sep)[0]]. *)
Lemma split_item_0 s : forall piece,
  Str.item (Str.split_from sep 0 piece s) 0 = Some (piece ++ before sep s).
Proof.
  induction s as [|c s IH]; intro piece.
  - cbn. rewrite append_nil_r. reflexivity.
  - cbn [Str.split_from before].
    destruct (String.prefix sep (String c s)).
    + cbn. rewrite append_nil_r. reflexivity.
    + rewrite IH, append_assoc. reflexivity.
Qed.

(** [s.split(sep)[1]] when [sep in s]: the index is in range, and the
    piece holds no occurrence of [sep]. *)
Lemma split_item_1 s : forall piece,
  Py.contains sep s = true ->
  exists r, Str.item (Str.split_from sep 0 piece s) 1 = Some (before sep r).
Proof.
  induction s as [|c s IH]; intros piece H.
  - cbn in H. rewrite orb_false_r in H. apply prefix_nil in H. congruence.
  - cbn [Str.split_from]. destruct (String.prefix sep (String c s)) eqn:Hp.
    + apply prefix_split in Hp as [r Hr].
      destruct sep as [|d w] eqn:E; [congruence|].
      rewrite append_cons in Hr. injection Hr as _ ->.
      cbn [String.length]. rewrite Nat.sub_succ, Nat.sub_0_r.
      exists r. rewrite <- E, split_skip.
      change (Str.item (piece :: Str.split_from sep 0 "" r) 1)
        with (Str.item (Str.split_from sep 0 "" r) 0).
      rewrite split_item_0. reflexivity.
    + cbn [Py.contains] in H. rewrite Hp in H. apply IH, H.
Qed.

End Before.

(** What [strip] leaves is a part of the text, without white space at
    either end. *)
Lemma lstrip_is_suffix s : exists u, s = u ++ Str.lstrip s.
Proof.
  induction s as [|c s [u IH]]; [exists ""; reflexivity|].
  cbn [Str.lstrip]. destruct (Str.is_space c).
  - exists (String c u). rewrite append_cons, <- IH. reflexivity.
  - exists "". reflexivity.
Qed.

Lemma rstrip_is_prefix s : exists v, s = Str.rstrip s ++ v.
Proof.
  induction s as [|c s [v IH]]; [exists ""; reflexivity|].
  cbn [Str.rstrip]. destruct (Str.rstrip s) as [|d r] eqn:E.
  - destruct (Str.is_space c).
    + exists (String c s). reflexivity.
    + exists s. reflexivity.
  - exists v. rewrite append_cons, <- IH. reflexivity.
Qed.

Lemma contains_strip w s :
  Py.contains w s = false -> Py.contains w (Str.strip s) = false.
Proof.
  intro H. destruct (Py.contains w (Str.strip s)) eqn:E; [|reflexivity].
  unfold Str.strip in E.
  destruct (lstrip_is_suffix s) as [u Hu].
  destruct (rstrip_is_prefix (Str.lstrip s)) as [v Hv].
  rewrite Hu, Hv in H.
  rewrite (contains_app_l _ _ _ (contains_app_r _ _ v E)) in H. discriminate.
Qed.

Lemma rstrip_rstrip s : Str.rstrip (Str.rstrip s) = Str.rstrip s.
Proof.
  induction s as [|c s IH]; [reflexivity|].
  cbn [Str.rstrip]. destruct (Str.rstrip s) as [|d r] eqn:E.
  - destruct (Str.is_space c) eqn:Hc; [reflexivity|].
    cbn. rewrite Hc. reflexivity.
  - cbn [Str.rstrip] in IH |- *. 
    change (Str.rstrip (String c (String d r)))
      with (match Str.rstrip (String d r) with
            | "" => if Str.is_space c then "" else String c ""
            | String d' r' => String c (String d' r')
            end).
    rewrite IH. reflexivity.
Qed.

Lemma rstrip_head c s :
  Str.is_space c = false -> exists r, Str.rstrip (String c s) = String c r.
Proof.
  intro Hc. cbn [Str.rstrip]. destruct (Str.rstrip s).
  - rewrite Hc. eauto.
  - eauto.
Qed.

Lemma strip_strip s : Str.strip (Str.strip s) = Str.strip s.
Proof.
  unfold Str.strip.
  assert (Hl : Str.lstrip (Str.rstrip (Str.lstrip s)) =
               Str.rstrip (Str.lstrip s)).
  { induction s as [|c s IH]; [reflexivity|].
    cbn [Str.lstrip]. destruct (Str.is_space c) eqn:Hc; [exact IH|].
    destruct (rstrip_head c s Hc) as [r ->].
    cbn [Str.lstrip]. rewrite Hc. reflexivity. }
  rewrite Hl. apply rstrip_rstrip.
Qed.


(** ** The customiser *)

Definition nl : ascii := "010"%char.

Definition newline : string := String nl "".

(** The prompt, line by line; [context_text] is [str(context)]. *)
Definition customize_prompt (subject body context_text : string) : string :=
  Py.join newline
    [ "You are an expert at writing professional insurance claim correspondence.";
      "";
      "Review and improve this email while maintaining its core message and professional tone.";
      "";
      "**Current Email:**";
      "Subject: " ++ subject;
      "";
      body;
      "";
      "**Context:**";
      context_text;
      "";
      "**Instructions:**";
      "1. Maintain the professional, respectful tone";
      "2. Keep all factual information and citations";
      "3. Improve clarity and flow if needed";
      "4. Add any relevant details from context";
      "5. Ensure proper formatting";
      "6. Keep it concise but complete";
      "";
      "Return ONLY the improved email in this exact format:";
      "SUBJECT: [improved subject line]";
      "";
      "BODY:";
      "[improved body]";
      "" ].

Definition customize_messages (subject body context_text : string)
    : list Message :=
  [ {| role := "system";
       content_of :=
         "You are a professional insurance correspondence specialist." |};
    {| role := "user";
       content_of := customize_prompt subject body context_text |} ].

(** [subject_part]: the text between the first [SUBJECT:] and what
    follows it first of [SUBJECT:] and [BODY:], stripped; the subject
    given when the answer has no [SUBJECT:]. [None] is an [IndexError]. *)
Definition subject_part (text subject : string) : option string :=
  if Py.contains "SUBJECT:" text then
    after ← Str.item (Str.split text "SUBJECT:") 1;
    piece ← Str.item (Str.split after "BODY:") 0;
    Some (Str.strip piece)
  else Some subject.

(** [body_part]: the text between the first and the second [BODY:],
    stripped; the body given when the answer has no [BODY:]. *)
Definition body_part (text body : string) : option string :=
  if Py.contains "BODY:" text then
    after ← Str.item (Str.split text "BODY:") 1;
    Some (Str.strip after)
  else Some body.

(** The dict [{"subject": ..., "body": ...}]. *)
Record EmailText := { email_subject : string; email_body : string }.

Section Customizer.

Variable settings : Settings.
Variable chat_completions_create : ChatRequest -> ResponseData + string.
Variable elapsed_ms : ProviderCall -> Z.

(** [user_id] is [str(user_id)]. Any exception, of the gateway or of the
    reading of its answer, gives the email back as it came. *)
Definition _customize_with_ai (subject body context_text user_id : string)
    (m : Manager) : EmailText * Manager :=
  let original := {| email_subject := subject; email_body := body |} in
  let response :=
    generate settings chat_completions_create elapsed_ms
      (customize_messages subject body context_text) "susan" (Some user_id)
      None None false m in
  (match fst response with
   | Return r =>
       let parsed :=
         s ← subject_part (content r) subject;
         b ← body_part (content r) body;
         Some {| email_subject := s; email_body := b |} in
       default original parsed
   | Raise _ => original
   end,
   snd response).

End Customizer.

(** An answer in the format the prompt asks for: [SUBJECT: s], an empty
    line, [BODY:], and [b] from the next line on. *)
Definition improved_email (s b : string) : string :=
  "SUBJECT: " ++ s ++ String nl (String nl ("BODY:" ++ String nl b)).

(** A provider that answers in that format. *)
Definition improving (r : ChatRequest) : ResponseData + string :=
  inl {| rd_content :=
           improved_email "Roof claim 12-345"
                          "Dear adjuster, the estimate is attached.";
         rd_usage := sample_usage |}.

(** A provider that answers without the markers. *)
Definition chatting (r : ChatRequest) : ResponseData + string :=
  inl {| rd_content := "Looks good to me."; rd_usage := sample_usage |}.

Lemma subject_part_improved s b subject :
  Py.contains "SUBJECT:" s = false -> Py.contains "BODY:" s = false ->
  subject_part (improved_email s b) subject = Some (Str.strip s).
Proof.
  intros HS HB. unfold subject_part.
  replace (Py.contains "SUBJECT:" (improved_email s b)) with true
    by reflexivity.
  unfold Str.split.
  change (improved_email s b) with
    ("SUBJECT:" ++ ("" ++ String " " (s ++ String nl ("" ++ String nl
       ("BODY:" ++ String nl b))))).
  rewrite split_at_sep by discriminate.
  rewrite (split_barrier "SUBJECT:" "" " ") by reflexivity.
  rewrite (split_barrier "SUBJECT:" s nl) by (exact HS || reflexivity).
  rewrite (split_barrier "SUBJECT:" "" nl) by reflexivity.
  rewrite (split_barrier "SUBJECT:" "BODY:" nl) by reflexivity.
  destruct (split_head "SUBJECT:" b 0
              (((("" ++ "" ++ " ") ++ s ++ String nl "") ++ "" ++ String nl "")
               ++ "BODY:" ++ String nl "")) as (t & l & ->).
  cbn [Str.item nth_error mbind option_bind].
  replace ((((("" ++ "" ++ " ") ++ s ++ String nl "") ++ "" ++ String nl "")
               ++ "BODY:" ++ String nl "") ++ t)
    with ("" ++ String " " (s ++ String nl ("" ++ String nl
            ("BODY:" ++ String nl t))))
    by (rewrite !append_assoc; reflexivity).
  rewrite (split_barrier "BODY:" "" " ") by reflexivity.
  rewrite (split_barrier "BODY:" s nl) by (exact HB || reflexivity).
  rewrite (split_barrier "BODY:" "" nl) by reflexivity.
  rewrite split_at_sep by discriminate.
  cbn [Str.item nth_error mbind option_bind]. f_equal.
  replace ((("" ++ "" ++ " ") ++ s ++ String nl "") ++ "" ++ String nl "")
    with ((String " " s ++ String nl "") ++ String nl "")
    by (rewrite !append_assoc; reflexivity).
  rewrite !strip_space_r by reflexivity.
  apply strip_space_l. reflexivity.
Qed.

Lemma body_part_improved s b body :
  Py.contains "BODY:" s = false -> Py.contains "BODY:" b = false ->
  body_part (improved_email s b) body = Some (Str.strip b).
Proof.
  intros Hs Hb. unfold body_part, Str.split.
  change (improved_email s b) with
    ("SUBJECT:" ++ String " " (s ++ String nl ("" ++ String nl
       ("BODY:" ++ ("" ++ String nl b))))).
  assert (Hin : Py.contains "BODY:"
            ("SUBJECT:" ++ String " " (s ++ String nl ("" ++ String nl
               ("BODY:" ++ ("" ++ String nl b))))) = true).
  { rewrite !contains_barrier by reflexivity.
    replace (Py.contains "BODY:" ("BODY:" ++ "" ++ String nl b)) with true
      by reflexivity.
    rewrite !orb_true_r. reflexivity. }
  rewrite Hin.
  rewrite (split_barrier "BODY:" "SUBJECT:" " ") by reflexivity.
  rewrite (split_barrier "BODY:" s nl) by (exact Hs || reflexivity).
  rewrite (split_barrier "BODY:" "" nl) by reflexivity.
  rewrite split_at_sep by discriminate.
  rewrite (split_barrier "BODY:" "" nl) by reflexivity.
  rewrite split_end by exact Hb.
  reflexivity.
Qed.

(** The reading of the subject: the index is always in range. *)
Lemma subject_part_total text subject :
  exists s,
    subject_part text subject = Some s /\
    if Py.contains "SUBJECT:" text
    then Str.strip s = s /\ Py.contains "SUBJECT:" s = false /\
         Py.contains "BODY:" s = false
    else s = subject.
Proof.
  unfold subject_part.
  destruct (Py.contains "SUBJECT:" text) eqn:E; [|eauto].
  destruct (split_item_1 "SUBJECT:" ltac:(discriminate) text "" E) as [r Hr].
  unfold Str.split. rewrite Hr. cbn [mbind option_bind].
  rewrite (split_item_0 "BODY:"). cbn [mbind option_bind].
  eexists. split; [reflexivity|].
  rewrite append_nil_l. split; [apply strip_strip|].
  split; apply contains_strip.
  - destruct (Py.contains "SUBJECT:" (before "BODY:" (before "SUBJECT:" r)))
      eqn:H; [|reflexivity].
    destruct (before_is_prefix "BODY:" (before "SUBJECT:" r)) as [v Hv].
    pose proof (before_clean "SUBJECT:" ltac:(discriminate) r) as Hclean.
    rewrite Hv, (contains_app_r _ _ v H) in Hclean. discriminate.
  - apply before_clean. discriminate.
Qed.

(** The reading of the body. *)
Lemma body_part_total text body :
  exists b,
    body_part text body = Some b /\
    if Py.contains "BODY:" text
    then Str.strip b = b /\ Py.contains "BODY:" b = false
    else b = body.
Proof.
  unfold body_part.
  destruct (Py.contains "BODY:" text) eqn:E; [|eauto].
  destruct (split_item_1 "BODY:" ltac:(discriminate) text "" E) as [r Hr].
  unfold Str.split. rewrite Hr. cbn [mbind option_bind].
  eexists. split; [reflexivity|].
  split; [apply strip_strip|].
  apply contains_strip, before_clean. discriminate.
Qed.

Section CustomizerFacts.

Context (settings : Settings)
        (api : ChatRequest -> ResponseData + string)
        (elapsed : ProviderCall -> Z)
        (messages : list Message) (ai_type : string)
        (user_id : option string) (temperature : float)
        (requested : Z) (stream : bool).

(** When no provider can serve, the loop raises, with or without stats
    entries. *)
Lemma loop_all_fail_raises ps errors m :
  Forall (fails settings api messages ai_type temperature requested stream)
         ps ->
  exists e,
    fst (generate_loop settings api elapsed messages ai_type user_id
                       temperature requested stream ps errors m) = Raise e.
Proof.
  apply (loop_cases settings api elapsed messages ai_type user_id temperature
           requested stream
           (fun ps errors m out =>
              Forall (fails settings api messages ai_type temperature
                            requested stream) ps ->
              exists e, fst out = Raise e)).
  - intros errs m0 _. eexists. reflexivity.
  - intros p rest errs m0 _ IH Hall. apply IH.
    apply Forall_cons_1 in Hall as [_ Hall]. exact Hall.
  - intros p rest errs m0 model rd s Hc Ha _ Hall.
    apply Forall_cons_1 in Hall as [Hp _].
    destruct (Hp model Hc) as [e He]. congruence.
  - intros p rest errs m0 model e s _ _ _ IH Hall. apply IH.
    apply Forall_cons_1 in Hall as [_ Hall]. exact Hall.
  - intros p rest errs m0 model _ _ _. eexists. reflexivity.
Qed.

End CustomizerFacts.

(** ** Falling back on the email given *)

(** X13. [_customize_with_ai] hands back the subject and the body it was
    given when no provider can serve the request (whatever the state of
    the manager), whenever the gateway raises, and when the answer of the
    gateway holds neither [SUBJECT:] nor [BODY:]. *)
Theorem customizer_falls_back
    settings api elapsed subject body context_text user_id m :
  let messages := customize_messages subject body context_text in
  let asked := generate settings api elapsed messages "susan" (Some user_id)
                        None None false m in
  let out := _customize_with_ai settings api elapsed subject body
                                context_text user_id m in
  let original := {| email_subject := subject; email_body := body |} in
  (Forall (fails settings api messages "susan" (AI_TEMPERATURE settings)
                 (AI_MAX_TOKENS settings) false) (providers m) ->
   fst out = original) /\
  (forall e, fst asked = Raise e -> fst out = original) /\
  (forall r, fst asked = Return r ->
     Py.contains "SUBJECT:" (content r) = false ->
     Py.contains "BODY:" (content r) = false ->
     fst out = original).
Proof.
  intros messages asked out original.
  assert (Hraise : forall e, fst asked = Raise e -> fst out = original).
  { intros e He. unfold out, _customize_with_ai. cbn [fst].
    fold messages. fold asked. rewrite He. reflexivity. }
  split; [|split; [exact Hraise|]].
  - intro Hall.
    destruct (loop_all_fail_raises settings api elapsed messages "susan"
                (Some user_id) (AI_TEMPERATURE settings)
                (AI_MAX_TOKENS settings) false
                (sorted_by_priority (providers m)) [] m) as [e He].
    { apply (Permutation_Forall
               (Permutation_sym (sorted_by_priority_perm (providers m)))).
      exact Hall. }
    apply (Hraise e). exact He.
  - intros r Hr HS HB. unfold out, _customize_with_ai. cbn [fst].
    fold messages. fold asked. rewrite Hr.
    unfold subject_part, body_part. rewrite HS, HB. reflexivity.
Qed.

Lemma customizer_falls_back_witness :
  fst (_customize_with_ai default_settings all_down latency "Claim 7"
         "Please review." "{}" "u7" (__init__ default_settings)) =
    {| email_subject := "Claim 7"; email_body := "Please review." |} /\
  fst (_customize_with_ai default_settings chatting latency "Claim 7"
         "Please review." "{}" "u7" (__init__ default_settings)) =
    {| email_subject := "Claim 7"; email_body := "Please review." |}.
Proof.
  split.
  - destruct (customizer_falls_back default_settings all_down latency
                "Claim 7" "Please review." "{}" "u7"
                (__init__ default_settings)) as [Hall _].
    apply Hall. repeat constructor; intros model _; eexists; reflexivity.
  - destruct (customizer_falls_back default_settings chatting latency
                "Claim 7" "Please review." "{}" "u7"
                (__init__ default_settings)) as (_ & _ & Hplain).
    eapply Hplain; reflexivity.
Defined.

(** ** Reading an answer in the requested format *)

(** X14. When the gateway returns an answer in the format the prompt asks
    for, [SUBJECT: s], an empty line, [BODY:] and [b], where [s] holds
    neither marker and [b] no [BODY:], the customised email is [s] and
    [b], each without the white space around it. *)
Theorem customizer_round_trip
    settings api elapsed subject body context_text user_id m r s b :
  fst (generate settings api elapsed
         (customize_messages subject body context_text) "susan"
         (Some user_id) None None false m) = Return r ->
  content r = improved_email s b ->
  Py.contains "SUBJECT:" s = false ->
  Py.contains "BODY:" s = false ->
  Py.contains "BODY:" b = false ->
  fst (_customize_with_ai settings api elapsed subject body context_text
                          user_id m) =
  {| email_subject := Str.strip s; email_body := Str.strip b |}.
Proof.
  intros Hr Hc HS HB Hb. unfold _customize_with_ai. cbn [fst].
  rewrite Hr, Hc.
  rewrite (subject_part_improved s b subject HS HB).
  rewrite (body_part_improved s b body HB Hb).
  reflexivity.
Qed.

Lemma customizer_round_trip_witness :
  fst (_customize_with_ai default_settings improving latency "Claim 7"
         "Please review." "{}" "u7" (__init__ default_settings)) =
  {| email_subject := "Roof claim 12-345";
     email_body := "Dear adjuster, the estimate is attached." |}.
Proof.
  rewrite (customizer_round_trip default_settings improving latency "Claim 7"
             "Please review." "{}" "u7" (__init__ default_settings)
             {| content := improved_email "Roof claim 12-345"
                             "Dear adjuster, the estimate is attached.";
                provider := "groq";
                model := "llama-3.3-70b-versatile";
                usage := sample_usage;
                cost := _calculate_cost 15 0.00059%float;
                response_time_ms := 12 |}
             "Roof claim 12-345" "Dear adjuster, the estimate is attached."
             eq_refl eq_refl eq_refl eq_refl eq_refl).
  reflexivity.
Defined.

(** ** Reading any answer *)

(** X15. Whatever the gateway answers, the customiser reads it without an
    exception: the indices [1] and [0] after [split] are always in range.
    The subject it returns is the one given when the answer has no
    [SUBJECT:], and otherwise a text with no white space around it that
    holds neither [SUBJECT:] nor [BODY:]; the body it returns is the one
    given when the answer has no [BODY:], and otherwise a text with no
    white space around it that holds no [BODY:]. *)
Theorem customizer_reads_answer
    settings api elapsed subject body context_text user_id m r :
  fst (generate settings api elapsed
         (customize_messages subject body context_text) "susan"
         (Some user_id) None None false m) = Return r ->
  exists s b,
    fst (_customize_with_ai settings api elapsed subject body context_text
                            user_id m) =
      {| email_subject := s; email_body := b |} /\
    subject_part (content r) subject = Some s /\
    body_part (content r) body = Some b /\
    (if Py.contains "SUBJECT:" (content r)
     then Str.strip s = s /\ Py.contains "SUBJECT:" s = false /\
          Py.contains "BODY:" s = false
     else s = subject) /\
    (if Py.contains "BODY:" (content r)
     then Str.strip b = b /\ Py.contains "BODY:" b = false
     else b = body).
Proof.
  intro Hr.
  destruct (subject_part_total (content r) subject) as (s & Hs & Hs').
  destruct (body_part_total (content r) body) as (b & Hb & Hb').
  exists s, b. unfold _customize_with_ai. cbn [fst].
  rewrite Hr, Hs, Hb. auto.
Qed.

Lemma customizer_reads_answer_witness :
  exists s b,
    fst (_customize_with_ai default_settings chatting latency "Claim 7"
           "Please review." "{}" "u7" (__init__ default_settings)) =
      {| email_subject := s; email_body := b |} /\
    s = "Claim 7" /\ b = "Please review.".
Proof.
  destruct (customizer_reads_answer default_settings chatting latency
              "Claim 7" "Please review." "{}" "u7"
              (__init__ default_settings) _ eq_refl)
    as (s & b & Hout & _ & _ & Hs & Hb).
  exists s, b. split; [exact Hout|]. split; [exact Hs | exact Hb].
Defined.

(** ** What the customiser asks of the gateway *)

(** X16. On a manager whose providers all have a stats entry, one run of
    the customiser makes the calls and leaves the rows of one [generate]:
    every provider call carries the settings' temperature and the
    settings' max-tokens capped at the provider's ceiling, since the
    customiser overrides neither, and every row is logged under the
    persona susan and the user's id. *)
Theorem customizer_requests
    settings api elapsed subject body context_text user_id m :
  let out := _customize_with_ai settings api elapsed subject body
                                context_text user_id m in
  stats_cover m ->
  exists sent rows,
    calls (snd out) = (calls m ++ sent)%list /\
    ai_requests (snd out) = (ai_requests m ++ rows)%list /\
    Forall (fun c => exists p,
              In p (providers m) /\ call_provider c = name p /\
              call_temperature c = AI_TEMPERATURE settings /\
              call_max_tokens c =
                Py.min_int (AI_MAX_TOKENS settings) (max_tokens p)) sent /\
    Forall (fun row => req_user_id row = Some user_id /\
                       req_ai_type row = "susan") rows.
Proof.
  intros out Hcover. unfold out, _customize_with_ai. cbn [snd].
  set (messages := customize_messages subject body context_text).
  destruct (generate_accounted settings api elapsed messages "susan"
              (Some user_id) None None false m Hcover)
    as (pre & post & rows0 & Hsplit & Hacc).
  destruct (loop_rows settings api elapsed messages "susan" (Some user_id)
              (AI_TEMPERATURE settings) (AI_MAX_TOKENS settings) false
              (sorted_by_priority (providers m)) [] m
              (cover_sorted m Hcover)) as (rows & Hrows & Htell).
  eexists. exists rows.
  split; [apply (acc_calls _ _ _ _ Hacc)|].
  split; [exact Hrows|]. split.
  - eapply List.Forall_impl; [|apply calls_for_capped].
    intros c (p & Hp & Hn & Ht & Hk & _). exists p.
    split; [|auto].
    apply (Permutation_in _ (sorted_by_priority_perm (providers m))).
    rewrite Hsplit. apply in_or_app. left; exact Hp.
  - unfold rows_tell in Htell.
    destruct (fst _) as [r|e] in Htell.
    + destruct Htell as (failed & -> & Hfailed).
      apply Forall_app. split.
      * eapply List.Forall_impl; [|exact Hfailed].
        intros row (Hu & Ha & _). auto.
      * constructor; [split; reflexivity | constructor].
    + destruct Htell as [Hfailed _].
      eapply List.Forall_impl; [|exact Hfailed].
      intros row (Hu & Ha & _). auto.
Qed.

Lemma customizer_requests_witness :
  let out := _customize_with_ai default_settings groq_down latency "Claim 7"
               "Please review." "{}" "u7" (__init__ default_settings) in
  map (fun c => (call_provider c, call_max_tokens c)) (calls (snd out)) =
    [("groq", 2048); ("together", 2048)] /\
  map (fun row => (req_user_id row, req_ai_type row, req_success row))
      (ai_requests (snd out)) =
    [(Some "u7", "susan", false); (Some "u7", "susan", true)].
Proof.
  destruct (customizer_requests default_settings groq_down latency "Claim 7"
              "Please review." "{}" "u7" (__init__ default_settings)
              (make_manager_cover _)) as (sent & rows & _).
  split; reflexivity.
Defined.
